(** * hubblestack/extmods/fdg/time_sync.py

    A shallow embedding of the [time_sync] data-gathering module and the
    properties of its quorum policy.

    The module has two functions.  [_query_ntp_server] runs
    [ntpdate -q <server>] through the [cmd.run] collaborator and extracts
    the offset from the last line of its output; [time_check] merges the
    chained server list into its own, queries the servers in order and
    reduces their offsets to a pair [(executed, passed)].

    Python values are embedded as follows; where Python 2 and Python 3
    differ, the built-in functions are those of Python 3.
    - [str] is [string]; the text is taken to be ASCII.
    - [float] is a binary64 number, Stdlib's [spec_float] at precision 53.
    - [int] is [Z]; [max_offset] and [nb_servers] are ints, as the
      docstring of [time_check] has them.
    - [None] is the [None] of an [option].
    - a list object lives in a store and is named by its location, so that
      [list.extend] is visible to whoever else holds the list.
    - an exception is the [Raise] outcome of a computation. *)

From Stdlib Require Import ZArith List Bool Ascii String Lia SpecFloat.
Import ListNotations.

Local Open Scope string_scope.
Local Open Scope Z_scope.

(** ** Python strings: the [str] methods the module calls *)

Module PyStr.

(** [str.isspace] on one ASCII character: TAB, LF, VT, FF, CR, the four
    separators FS, GS, RS, US and the space. *)
Definition isspace (c : ascii) : bool :=
  let n := Z.of_nat (nat_of_ascii c) in
  ((9 <=? n) && (n <=? 13)) || ((28 <=? n) && (n <=? 32)).

Definition isdigit (c : ascii) : bool :=
  let n := Z.of_nat (nat_of_ascii c) in (48 <=? n) && (n <=? 57).

Definition is_empty (s : string) : bool :=
  match s with EmptyString => true | String _ _ => false end.

Definition snoc (s : string) (c : ascii) : string := s ++ String c "".

(** [s.split(sep)] for a non-empty [sep]: the pieces between the
    non-overlapping occurrences of [sep], scanning from the left.  [cur]
    is the piece being read and [skip] counts the characters of a matched
    separator still to be passed over.  The result is never empty.
    (Python refuses an empty separator; the module only splits on the
    constants ['\n'] and ['offset'].) *)
Fixpoint split_from (sep : string) (skip : nat) (cur s : string) : list string :=
  match s with
  | EmptyString => [cur]
  | String c s' =>
      match skip with
      | S k => split_from sep k cur s'
      | O =>
          if prefix sep s
          then cur :: split_from sep (Nat.pred (String.length sep)) "" s'
          else split_from sep O (snoc cur c) s'
      end
  end.

Definition split (sep s : string) : list string := split_from sep O "" s.

(** [sep in s]: the text [sep] occurs somewhere in [s]. *)
Fixpoint occurs (sep s : string) : bool :=
  match s with
  | EmptyString => prefix sep s
  | String _ s' => prefix sep s || occurs sep s'
  end.

(** [s.split()] with no argument: the maximal runs of characters that are
    not whitespace; empty pieces are dropped, so the result may be empty. *)
Fixpoint split_ws_from (cur s : string) : list string :=
  match s with
  | EmptyString => if is_empty cur then [] else [cur]
  | String c s' =>
      if isspace c
      then (if is_empty cur then split_ws_from "" s' else cur :: split_ws_from "" s')
      else split_ws_from (snoc cur c) s'
  end.

Definition split_ws (s : string) : list string := split_ws_from "" s.

(** Drops the leading characters that satisfy [p]. *)
Fixpoint lstrip (p : ascii -> bool) (s : string) : string :=
  match s with
  | String c s' => if p c then lstrip p s' else s
  | EmptyString => EmptyString
  end.

Fixpoint rev_onto (acc s : string) : string :=
  match s with
  | EmptyString => acc
  | String c s' => rev_onto (String c acc) s'
  end.

Definition rev (s : string) : string := rev_onto "" s.

Definition strip (p : ascii -> bool) (s : string) : string :=
  rev (lstrip p (rev (lstrip p s))).

Definition lower_char (c : ascii) : ascii :=
  let n := nat_of_ascii c in
  if ((65 <=? n) && (n <=? 90))%nat then ascii_of_nat (n + 32) else c.

Fixpoint lower (s : string) : string :=
  match s with
  | EmptyString => EmptyString
  | String c s' => String (lower_char c) (lower s')
  end.

Definition newline : string := String (ascii_of_nat 10) "".

End PyStr.

(** ** Python floats *)

Module PyFloat.

Definition float : Type := spec_float.

Definition prec : Z := 53.
Definition emax : Z := 1024.

(** [bool(x)]: a float is false exactly when it equals zero, of either
    sign.  NaN and the infinities are true. *)
Definition truthy (x : float) : bool :=
  match x with
  | S754_zero _ => false
  | _ => true
  end.

(** The exact value of a finite float is [num x * 2 ^ exponent x]. *)
Definition signed (s : bool) (m : positive) : Z :=
  if s then Zneg m else Zpos m.

(** [x > n] for a float [x] and an int [n].  Python compares the two
    exactly, without rounding [n] to a float; NaN compares false. *)
Definition gt_int (x : float) (n : Z) : bool :=
  match x with
  | S754_nan => false
  | S754_infinity s => negb s
  | S754_zero _ => n <? 0
  | S754_finite s m e =>
      if 0 <=? e
      then n <? signed s m * 2 ^ e
      else n * 2 ^ (- e) <? signed s m
  end.

(** [x < n], likewise. *)
Definition lt_int (x : float) (n : Z) : bool :=
  match x with
  | S754_nan => false
  | S754_infinity s => s
  | S754_zero _ => 0 <? n
  | S754_finite s m e =>
      if 0 <=? e
      then signed s m * 2 ^ e <? n
      else signed s m <? n * 2 ^ (- e)
  end.

(** The binary64 number nearest to [(-1)^neg * m * 10^e10], ties to even:
    the correctly rounded quotient of two integers. *)
Definition of_decimal (neg : bool) (m : Z) (e10 : Z) : float :=
  match m with
  | Zpos p =>
      SFdiv prec emax
        (S754_finite neg (p * Z.to_pos (10 ^ Z.max e10 0)) 0)
        (S754_finite false (Z.to_pos (10 ^ Z.max (- e10) 0)) 0)
  | _ => S754_zero neg
  end.

(** [x] is a finite, canonical binary64 number within half a unit in the
    last place of the fraction [num / den], for [den > 0]. *)
Definition nearest_to (x : float) (num den : Z) : bool :=
  match x with
  | S754_finite s m e =>
      valid_binary prec emax x
      && (if 0 <=? e
          then 2 * Z.abs (signed s m * 2 ^ e * den - num) <=? den * 2 ^ e
          else 2 * Z.abs (signed s m * den - num * 2 ^ (- e)) <=? den)
  | _ => false
  end.

Import PyStr.

(** The whitespace [float] strips from an ASCII text: TAB, LF, VT, FF, CR
    and the space.  (Narrower than [str.isspace]: the separators FS to US
    are not stripped, and make the text malformed.) *)
Definition c_isspace (c : ascii) : bool :=
  let n := Z.of_nat (nat_of_ascii c) in
  ((9 <=? n) && (n <=? 13)) || (n =? 32).

Definition digit_value (c : ascii) : Z := Z.of_nat (nat_of_ascii c) - 48.

(** Reads the longest run of decimal digits at the head of [s]: the value
    of [acc] followed by those digits, how many were read, and the rest. *)
Fixpoint read_digits (acc : Z) (n : Z) (s : string) : Z * Z * string :=
  match s with
  | String c s' =>
      if isdigit c then read_digits (10 * acc + digit_value c) (n + 1) s'
      else (acc, n, s)
  | EmptyString => (acc, n, s)
  end.

Definition read_sign (s : string) : bool * string :=
  match s with
  | String "-" s' => (true, s')
  | String "+" s' => (false, s')
  | _ => (false, s)
  end.

(** Digit grouping: an underscore is allowed only between two digits.
    Returns the text without its underscores, or [None] when one is
    misplaced.  [prev] is the character before the head of [s]. *)
Fixpoint drop_underscores (prev : option ascii) (s : string) : option string :=
  match s with
  | EmptyString =>
      match prev with
      | Some "_"%char => None
      | _ => Some EmptyString
      end
  | String c s' =>
      let after_digit :=
        match prev with Some p => isdigit p | None => false end in
      let after_underscore :=
        match prev with Some "_"%char => true | _ => false end in
      if Ascii.eqb c "_" then
        if after_digit then drop_underscores (Some c) s' else None
      else if after_underscore && negb (isdigit c) then None
      else option_map (String c) (drop_underscores (Some c) s')
  end.

Definition is_exponent_mark (c : ascii) : bool :=
  Ascii.eqb c "e" || Ascii.eqb c "E".

(** The decimal part of the grammar, after the sign:
    [digits [. [digits]] | . digits], then an optional
    [(e|E) [sign] digits], then the end of the text. *)
Definition parse_decimal (neg : bool) (s : string) : option float :=
  let '(ip, ni, r1) := read_digits 0 0 s in
  let '(m, nf, r2) :=
    match r1 with
    | String "." r => read_digits ip 0 r
    | _ => (ip, 0, r1)
    end in
  if ni + nf =? 0 then None
  else
    match r2 with
    | EmptyString => Some (of_decimal neg m (- nf))
    | String c r3 =>
        if is_exponent_mark c then
          let '(eneg, r4) := read_sign r3 in
          let '(ev, ne, r5) := read_digits 0 0 r4 in
          if (ne =? 0) || negb (is_empty r5) then None
          else Some (of_decimal neg m ((if eneg then - ev else ev) - nf))
        else None
    end.

(** [float(s)] for a string [s]; [None] stands for [ValueError].  The text
    is stripped of surrounding whitespace and of digit-grouping
    underscores, and must then be, in full, a signed decimal number or one
    of [inf], [infinity], [nan] in any letter case. *)
Definition of_string (s : string) : option float :=
  match drop_underscores None (strip c_isspace s) with
  | None => None
  | Some t =>
      let '(neg, body) := read_sign t in
      let l := lower body in
      if String.eqb l "inf" || String.eqb l "infinity" then Some (S754_infinity neg)
      else if String.eqb l "nan" then Some S754_nan
      else parse_decimal neg body
  end.

End PyFloat.

(** ** Objects, exceptions and the state of a run *)

(** A list object is named by its location; the store gives its elements.
    Two variables that hold the same location are aliases. *)
Definition loc : Type := nat.
Definition store : Type := loc -> list string.

Definition store_set (h : store) (l : loc) (v : list string) : store :=
  fun l' => if Nat.eqb l' l then v else h l'.

(** A value that is a list of server names or [None]. *)
Definition pylist : Type := option loc.

(** Truth value of such a value: [None] and the empty list are false. *)
Definition list_truthy (h : store) (v : pylist) : bool :=
  match v with
  | None => false
  | Some l => match h l with [] => false | _ :: _ => true end
  end.

(** The elements of such a value, none for [None]. *)
Definition elements (h : store) (v : pylist) : list string :=
  match v with
  | None => []
  | Some l => h l
  end.

Inductive exn : Type := TypeError | AttributeError | IndexError | ValueError.

Inductive outcome (A : Type) : Type :=
| Ret (a : A)
| Raise (e : exn).
Arguments Ret {A} a.
Arguments Raise {A} e.

(** What [log.error] is called with. *)
Inductive log_record : Type :=
| NoServersProvided
| ServersReached (checked_servers nb_servers : Z)
| UnexpectedReturnData (ret : option string).

(** The pair [time_check] returns: [passed] is [None], [True] or [False]. *)
Definition verdict : Type := (bool * option bool)%type.

(** How one pass through the body of the [for] loop ends: it goes on to the
    next server with the current count, or returns from [time_check]. *)
Inductive flow : Type :=
| Next (checked_servers : Z)
| Return (v : verdict).

Section TimeSync.

(** The collaborator: [__salt__['cmd.run']] takes a command line and gives
    its output, or [None].  It acts on a world of its own (the network,
    the clock), so two calls with one command may answer differently. *)
Variable World : Type.
Variable cmd_run : string -> World -> option string * World.

(** The state of a run: the collaborator's world, the store of list
    objects, the commands given to [cmd.run] so far and the records given
    to [log.error] so far, both oldest first. *)
Record state : Type := State {
  world : World;
  heap : store;
  calls : list string;
  logged : list log_record
}.

(** Computations: a state transformer whose result may be an exception. *)
Definition M (A : Type) : Type := state -> outcome A * state.

Definition pure {A} (a : A) : M A := fun st => (Ret a, st).

Definition raise {A} (e : exn) : M A := fun st => (Raise e, st).

Definition bind {A B} (c : M A) (k : A -> M B) : M B :=
  fun st =>
    match c st with
    | (Ret a, st') => k a st'
    | (Raise e, st') => (Raise e, st')
    end.

Notation "x <- c ;; k" := (bind c (fun x => k))
  (at level 61, c at next level, right associativity).
Notation "c ;;; k" := (bind c (fun _ => k))
  (at level 61, right associativity).

Definition add_log (r : log_record) (st : state) : state :=
  State (world st) (heap st) (calls st) (logged st ++ [r]).

Definition log_error (r : log_record) : M unit :=
  fun st => (Ret tt, add_log r st).

Definition call_cmd_run (cmd : string) : M (option string) :=
  fun st =>
    let '(out, w) := cmd_run cmd (world st) in
    (Ret out, State w (heap st) (calls st ++ [cmd]) (logged st)).

Definition truth (v : pylist) : M bool :=
  fun st => (Ret (list_truthy (heap st) v), st).

(** The elements a [for] loop over [v] visits.  [None] cannot be iterated. *)
Definition iterate (v : pylist) : M (list string) :=
  fun st =>
    match v with
    | None => (Raise TypeError, st)
    | Some l => (Ret (heap st l), st)
    end.

(** [a.extend(b)]: the elements of [b], as they are when the call is made,
    are appended to the object [a].  [None] has no [extend], and [None]
    cannot be iterated. *)
Definition list_extend (a b : pylist) : M unit :=
  fun st =>
    match a, b with
    | None, _ => (Raise AttributeError, st)
    | Some _, None => (Raise TypeError, st)
    | Some l, Some c =>
        (Ret tt,
         State (world st) (store_set (heap st) l (heap st l ++ heap st c))
               (calls st) (logged st))
    end.

(** *** [_query_ntp_server] *)

(** 'ntpdate -q {0}'.format(ntp_server) *)
Definition ntpdate_command (ntp_server : string) : string :=
  "ntpdate -q " ++ ntp_server.

(** The expression of the [try] block,
    [float(ret.split('\n')[-1].split('offset')[1].split()[0])]:
    its value, or the exception it raises. *)
Definition offset_expr (ret : option string) : outcome PyFloat.float :=
  match ret with
  | None => Raise AttributeError
  | Some text =>
      let last_line := last (PyStr.split PyStr.newline text) "" in
      match nth_error (PyStr.split "offset" last_line) 1 with
      | None => Raise IndexError
      | Some after =>
          match nth_error (PyStr.split_ws after) 0 with
          | None => Raise IndexError
          | Some token =>
              match PyFloat.of_string token with
              | None => Raise ValueError
              | Some x => Ret x
              end
          end
      end
  end.

(** The [try] statement: [TypeError], [AttributeError] and [IndexError]
    are caught, logged and turned into [None]; any other exception goes
    on to the caller. *)
Definition parse_offset (ret : option string) : M (option PyFloat.float) :=
  match offset_expr ret with
  | Ret x => pure (Some x)
  | Raise TypeError | Raise AttributeError | Raise IndexError =>
      log_error (UnexpectedReturnData ret) ;;; pure None
  | Raise e => raise e
  end.

Definition _query_ntp_server (ntp_server : string) : M (option PyFloat.float) :=
  ret <- call_cmd_run (ntpdate_command ntp_server) ;;
  parse_offset ret.

(** *** [time_check] *)

(** Lines 45-50: the value of the variable [ntp_servers] once the chained
    list has been merged in.  With both lists non-empty the object
    [ntp_servers] itself is extended; with [ntp_servers] empty or [None]
    the variable is bound to the object [chained]. *)
Definition merge_chained (ntp_servers : pylist) (extend_chained : bool)
           (chained : pylist) : M pylist :=
  if extend_chained then
    has_chained <- truth chained ;;
    if has_chained then
      has_servers <- truth ntp_servers ;;
      if has_servers then
        list_extend ntp_servers chained ;;; pure ntp_servers
      else pure chained
    else pure ntp_servers
  else pure ntp_servers.

(** Lines 58-63: the body of the loop after the query.  [not offset] holds
    for [None] and for a float equal to zero. *)
Definition loop_body (max_offset : Z) (offset : option PyFloat.float)
           (checked_servers : Z) : flow :=
  match offset with
  | None => Next checked_servers
  | Some x =>
      if negb (PyFloat.truthy x) then Next checked_servers
      else if PyFloat.gt_int x (max_offset * 60) then Return (true, Some false)
      else Next (checked_servers + 1)
  end.

(** Lines 56-63: the [for] loop over the servers still to be visited. *)
Fixpoint for_loop (max_offset : Z) (servers : list string)
         (checked_servers : Z) : M flow :=
  match servers with
  | [] => pure (Next checked_servers)
  | ntp_server :: rest =>
      offset <- _query_ntp_server ntp_server ;;
      match loop_body max_offset offset checked_servers with
      | Next n => for_loop max_offset rest n
      | Return v => pure (Return v)
      end
  end.

Definition time_check (ntp_servers : pylist) (max_offset nb_servers : Z)
           (extend_chained : bool) (chained : pylist) : M verdict :=
  ntp_servers <- merge_chained ntp_servers extend_chained chained ;;
  some <- truth ntp_servers ;;
  if negb some then
    log_error NoServersProvided ;;; pure (false, None)
  else
    servers <- iterate ntp_servers ;;
    end_of_loop <- for_loop max_offset servers 0 ;;
    match end_of_loop with
    | Return v => pure v
    | Next checked_servers =>
        if checked_servers <? nb_servers then
          log_error (ServersReached checked_servers nb_servers) ;;;
          pure (false, Some false)
        else pure (true, Some true)
    end.

(** *** Vocabulary of the properties *)

(** The answers of a list of servers: each is queried in turn, whatever
    the others answered. *)
Fixpoint query_all (servers : list string) : M (list (option PyFloat.float)) :=
  match servers with
  | [] => pure []
  | ntp_server :: rest =>
      offset <- _query_ntp_server ntp_server ;;
      offsets <- query_all rest ;;
      pure (offset :: offsets)
  end.

(** A parsed offset strictly greater than [max_offset * 60] seconds. *)
Definition exceeds (max_offset : Z) (offset : option PyFloat.float) : bool :=
  match offset with
  | Some x => PyFloat.gt_int x (max_offset * 60)
  | None => false
  end.

(** The server yielded a parseable offset. *)
Definition parsed (offset : option PyFloat.float) : bool :=
  match offset with Some _ => true | None => false end.

(** The answer is one the loop does not skip: a parsed offset other than
    zero. *)
Definition heeded (offset : option PyFloat.float) : bool :=
  match offset with Some x => PyFloat.truthy x | None => false end.

Definition count (p : option PyFloat.float -> bool)
           (offsets : list (option PyFloat.float)) : Z :=
  Z.of_nat (List.length (filter p offsets)).

(** The working list: what the loop of [time_check] iterates over when the
    call is made in state [st]. *)
(** The code's own test for the early return: the answer is heeded and
    exceeds the threshold. *)
Definition triggers (max_offset : Z) (offset : option PyFloat.float) : bool :=
  heeded offset && exceeds max_offset offset.

(** The state in which the loop of [time_check] starts when the call is
    made in state [st], and the working list: what the loop iterates
    over. *)
Definition after_merge (ntp_servers : pylist) (extend_chained : bool)
           (chained : pylist) (st : state) : state :=
  snd (merge_chained ntp_servers extend_chained chained st).

Definition working_list (ntp_servers : pylist) (extend_chained : bool)
           (chained : pylist) (st : state) : list string :=
  match merge_chained ntp_servers extend_chained chained st with
  | (Ret v, st') => elements (heap st') v
  | (Raise _, _) => []
  end.

End TimeSync.

Arguments State {World} _ _ _ _.
Arguments world {World} _.
Arguments heap {World} _.
Arguments calls {World} _.
Arguments logged {World} _.
Arguments pure {World A} _ _.
Arguments raise {World A} _ _.
Arguments bind {World A B} _ _ _.
Arguments add_log {World} _ _.
Arguments log_error {World} _ _.
Arguments call_cmd_run {World} _ _ _.
Arguments truth {World} _ _.
Arguments iterate {World} _ _.
Arguments list_extend {World} _ _ _.
Arguments parse_offset {World} _ _.
Arguments _query_ntp_server {World} _ _ _.
Arguments merge_chained {World} _ _ _ _.
Arguments for_loop {World} _ _ _ _ _.
Arguments time_check {World} _ _ _ _ _ _ _.
Arguments query_all {World} _ _ _.
Arguments after_merge {World} _ _ _ _.
Arguments working_list {World} _ _ _ _.

(** ** A scripted collaborator, for running the module on examples *)

Module Mock.

Fixpoint lookup (cmd : string) (script : list (string * string)) : option string :=
  match script with
  | [] => None
  | (c, out) :: script' => if String.eqb cmd c then Some out else lookup cmd script'
  end.

(** Answers each command with the output the script gives for it, and with
    [None] when the script has none.  Its world is trivial. *)
Definition cmd_run (script : list (string * string))
           (cmd : string) (w : unit) : option string * unit :=
  (lookup cmd script, w).

(** The output of [ntpdate -q] for a server that answered: a line for the
    server, then the summary line, which is the one the module reads. *)
Definition ntpdate_output (server offset : string) : string :=
  "server " ++ server ++ ", stratum 2, offset " ++ offset ++ ", delay 0.02585"
    ++ PyStr.newline
    ++ " 4 Nov 10:01:00 ntpdate[4242]: adjust time server " ++ server
    ++ " offset " ++ offset ++ " sec".

(** A script in which each listed server answers with the given offset. *)
Definition answering (offsets : list (string * string)) : list (string * string) :=
  map (fun so => (ntpdate_command (fst so), ntpdate_output (fst so) (snd so)))
      offsets.

(** A store whose object at location [l] is the [l]-th list given. *)
Definition objects (lists : list (list string)) : store :=
  fun l => nth l lists [].

Definition start (lists : list (list string)) : state unit :=
  State tt (objects lists) [] [].

(** Four servers within a few seconds of the host. *)
Definition near : list (string * string) :=
  answering [("a", "2.0"); ("b", "-1.0"); ("c", "5.0"); ("d", "0.5")].

(** The same, with the third server 1000 seconds ahead. *)
Definition third_far : list (string * string) :=
  answering [("a", "2.0"); ("b", "-1.0"); ("c", "1000.0"); ("d", "0.5")].

(** One server, in step with the host to the microsecond. *)
Definition in_step : list (string * string) :=
  answering [("a", "0.000000")].

(** One server, a thousand days behind the host. *)
Definition far_behind : list (string * string) :=
  answering [("a", "-86400000.5")].

(** One server, whose output has a word where the number should be. *)
Definition garbled : list (string * string) :=
  [(ntpdate_command "a", "server a, offset unknown")].

(** The response of the spec's parsing example: a comma follows the
    number. *)
Definition response_with_comma : string :=
  "ignored line" ++ PyStr.newline ++ "server x, offset -0.0123, delay 0.01".

(** The same response with whitespace after the number, as in the summary
    line of [ntpdate]. *)
Definition response_with_space : string :=
  "ignored line" ++ PyStr.newline ++ "server x, offset -0.0123 delay 0.01".

(** The float [-0.0123]. *)
Definition minus_0_0123 : PyFloat.float :=
  S754_finite true 7090467253332109 (-59).

End Mock.

(** ** Further vocabulary *)

(** Every character of [s] satisfies [p]. *)
Fixpoint all_chars (p : ascii -> bool) (s : string) : bool :=
  match s with
  | EmptyString => true
  | String c s' => p c && all_chars p s'
  end.

(** The text is empty or starts with whitespace. *)
Definition ends_token (s : string) : bool :=
  match s with
  | EmptyString => true
  | String c _ => PyStr.isspace c
  end.

(** The separator without its last character. *)
Fixpoint but_last (s : string) : string :=
  match s with
  | EmptyString => EmptyString
  | String c EmptyString => EmptyString
  | String c s' => String c (but_last s')
  end.

(** Lines 62 and 64-68: what [time_check] returns once the loop has ended,
    by the early return, by running out of servers with the count it
    reached, or by an exception. *)
Definition conclude {World : Type} (nb_servers : Z)
           (end_of_loop : outcome flow * state World)
  : outcome verdict * state World :=
  match end_of_loop with
  | (Ret (Return v), st) => (Ret v, st)
  | (Ret (Next checked_servers), st) =>
      if checked_servers <? nb_servers
      then (Ret (false, Some false),
            add_log (ServersReached checked_servers nb_servers) st)
      else (Ret (true, Some true), st)
  | (Raise e, st) => (Raise e, st)
  end.

(** The state in which list object [l] holds [v] and all else is as in
    [st]. *)
Definition with_list {World : Type} (l : loc) (v : list string)
           (st : state World) : state World :=
  State (world st) (store_set (heap st) l v) (calls st) (logged st).

(** The server yielded no parseable offset. *)
Definition unparsed (offset : option PyFloat.float) : bool :=
  negb (parsed offset).

(** The record is the diagnostic of an unusable response. *)
Definition is_unexpected (r : log_record) : bool :=
  match r with
  | UnexpectedReturnData _ => true
  | _ => false
  end.

(** The exception is one the [except] clause of [_query_ntp_server]
    names. *)
Definition caught (e : exn) : bool :=
  match e with
  | TypeError | AttributeError | IndexError => true
  | ValueError => false
  end.

(** The response is unusable: the expression of the [try] block raises an
    exception that is caught. *)
Definition unusable (ret : option string) : bool :=
  match offset_expr ret with
  | Raise e => caught e
  | Ret _ => false
  end.

(** ** Further scripted runs *)

Module Cases.

Definition abcd : list string := ["a"; "b"; "c"; "d"].

(** The four commands of a run over [abcd]. *)
Definition abcd_commands : list string := map ntpdate_command abcd.

(** A run starts with the list [abcd] at location 0 and the chained list
    [e; f] at location 1. *)
Definition start : state unit := Mock.start [abcd; ["e"; "f"]].

(** The state after every server of [abcd] was queried and nothing was
    stored or logged. *)
Definition all_queried : state unit :=
  State tt (Mock.objects [abcd; ["e"; "f"]]) abcd_commands [].

(** The state after [a], [b] and [c] were queried. *)
Definition three_queried : state unit :=
  State tt (Mock.objects [abcd; ["e"; "f"]]) (firstn 3 abcd_commands) [].

(** The second server answers with a word where the number should be. *)
Definition second_garbled : list (string * string) :=
  (ntpdate_command "b", "server b, offset unknown") :: Mock.near.

(** The state after [a] and [b] were queried. *)
Definition two_queried : state unit :=
  State tt (Mock.objects [abcd; ["e"; "f"]]) (firstn 2 abcd_commands) [].

(** Only [a] and [b] can be reached. *)
Definition two_reachable : list (string * string) :=
  Mock.answering [("a", "2.0"); ("b", "-1.0")].

(** The summary line of [ntpdate] for server [a], 0.5 seconds ahead, in
    its parts. *)
Definition summary_head : string :=
  " 4 Nov 10:01:00 ntpdate[4242]: adjust time server a ".

End Cases.

(** Unfolds the plumbing of the computations. *)
Ltac unfold_monad :=
  unfold bind, pure, raise, truth, iterate, log_error, list_extend,
    call_cmd_run in *.

(** ** Properties of the string and float layer *)

Module PyFacts.

Import PyStr PyFloat.

Lemma append_empty s : s ++ "" = s.
Proof. induction s; cbn; congruence. Qed.

Lemma append_snoc : forall s c t, snoc s c ++ t = s ++ String c t.
Proof. unfold snoc. induction s; intros; cbn; congruence. Qed.

Lemma split_from_without_sep sep : forall s cur,
  occurs sep s = false -> split_from sep O cur s = [cur ++ s].
Proof.
  induction s as [|c s IH]; intros cur H.
  - cbn. now rewrite append_empty.
  - cbn [occurs] in H. apply orb_false_iff in H as [Hp Ho].
    cbn [split_from]. rewrite Hp, (IH _ Ho).
    now rewrite append_snoc.
Qed.

(** A text without the separator is the only piece of its split. *)
Lemma split_without_sep sep s : occurs sep s = false -> split sep s = [s].
Proof. intro H. unfold split. now rewrite split_from_without_sep. Qed.

Lemma split_from_nonempty sep : forall s skip cur, split_from sep skip cur s <> [].
Proof.
  induction s as [|c s IH]; intros skip cur; cbn [split_from]; [discriminate|].
  destruct skip; [destruct (prefix sep (String c s))|];
    first [apply IH | discriminate].
Qed.

(** No float is both false and above a threshold that is not negative. *)
Lemma gt_nonneg_truthy x n : 0 <= n -> gt_int x n = true -> truthy x = true.
Proof.
  intros Hn H. destruct x; cbn in *; try reflexivity.
  apply Z.ltb_lt in H. lia.
Qed.

(** A float below zero is true and is not above a threshold that is not
    negative. *)
Lemma negative_truthy x : lt_int x 0 = true -> truthy x = true.
Proof. destruct x; cbn; intro H; try reflexivity. discriminate. Qed.

Lemma negative_not_gt x n : 0 <= n -> lt_int x 0 = true -> gt_int x n = false.
Proof.
  intros Hn H. destruct x as [s|s| |s m e]; cbn in *.
  - discriminate.
  - now rewrite H.
  - reflexivity.
  - destruct s; cbn [signed] in *.
    + destruct (0 <=? e) eqn:He.
      * apply Z.ltb_ge. apply Z.leb_le in He.
        assert (0 < 2 ^ e) by (apply Z.pow_pos_nonneg; lia). nia.
      * apply Z.ltb_ge. apply Z.leb_gt in He.
        assert (0 < 2 ^ (- e)) by (apply Z.pow_pos_nonneg; lia). nia.
    + destruct (0 <=? e) eqn:He; apply Z.ltb_lt in H.
      * apply Z.leb_le in He.
        assert (0 < 2 ^ e) by (apply Z.pow_pos_nonneg; lia). nia.
      * lia.
Qed.

End PyFacts.

(** ** Properties of [_query_ntp_server] and of the loop *)

Section Run.

Context {World : Type}.
Variable cmd_run : string -> World -> option string * World.

Abbreviation query := (_query_ntp_server cmd_run).
Abbreviation loop := (for_loop cmd_run).
Abbreviation all := (query_all cmd_run).

(** A query gives one command to [cmd.run] and leaves the store alone,
    however it ends. *)
Lemma query_effect ntp_server (st : state World) :
  calls (snd (query ntp_server st)) = (calls st ++ [ntpdate_command ntp_server])%list
  /\ heap (snd (query ntp_server st)) = heap st.
Proof.
  unfold _query_ntp_server, parse_offset. unfold_monad.
  destruct (cmd_run _ _) as [out w]. cbn.
  destruct (offset_expr out) as [x|[]]; cbn; auto.
Qed.

(** Of the four exceptions only [ValueError] leaves [_query_ntp_server]. *)
Lemma query_raises ntp_server (st st' : state World) e :
  query ntp_server st = (Raise e, st') -> e = ValueError.
Proof.
  unfold _query_ntp_server, parse_offset. unfold_monad.
  destruct (cmd_run _ _) as [out w]. cbn.
  destruct (offset_expr out) as [x|[]]; cbn; congruence.
Qed.

Lemma loop_cons max_offset ntp_server rest n (st : state World) :
  loop max_offset (ntp_server :: rest) n st =
  match query ntp_server st with
  | (Ret offset, st') =>
      match loop_body max_offset offset n with
      | Next n' => loop max_offset rest n' st'
      | Return v => (Ret (Return v), st')
      end
  | (Raise e, st') => (Raise e, st')
  end.
Proof.
  cbn [for_loop]. unfold bind at 1.
  destruct (query ntp_server st) as [[offset|e] st']; [|reflexivity].
  destruct (loop_body max_offset offset n); reflexivity.
Qed.

Lemma all_cons ntp_server rest (st : state World) :
  all (ntp_server :: rest) st =
  match query ntp_server st with
  | (Ret offset, st') =>
      match all rest st' with
      | (Ret offsets, st'') => (Ret (offset :: offsets), st'')
      | (Raise e, st'') => (Raise e, st'')
      end
  | (Raise e, st') => (Raise e, st')
  end.
Proof.
  cbn [query_all]. unfold bind at 1.
  destruct (query ntp_server st) as [[offset|e] st']; [|reflexivity].
  unfold bind, pure. destruct (all rest st') as [[offsets|e] st'']; reflexivity.
Qed.

(** When every server of a list answers, each was asked once, in order,
    and the store is as before. *)
Lemma all_effect : forall servers (st st' : state World) offsets,
  all servers st = (Ret offsets, st') ->
  calls st' = (calls st ++ map ntpdate_command servers)%list
  /\ heap st' = heap st
  /\ List.length offsets = List.length servers.
Proof.
  induction servers as [|s rest IH]; intros st st' offsets H.
  - cbn in H. injection H as <- <-. cbn. now rewrite app_nil_r.
  - rewrite all_cons in H.
    destruct (query_effect s st) as [Hc Hh].
    destruct (query s st) as [[o|e] st1]; [|discriminate].
    destruct (all rest st1) as [[os|e] st2] eqn:Hrest; [|discriminate].
    injection H as <- <-. destruct (IH _ _ _ Hrest) as (Hc' & Hh' & Hl).
    cbn in *. rewrite Hc', Hc, <- app_assoc. cbn. repeat split; congruence.
Qed.

(** The two ways the body of the loop ends. *)
Lemma loop_body_spec max_offset offset n :
  loop_body max_offset offset n =
  if triggers max_offset offset then Return (true, Some false)
  else Next (n + (if heeded offset then 1 else 0)).
Proof.
  unfold loop_body, triggers, heeded, exceeds.
  destruct offset as [x|]; cbn; [|f_equal; lia].
  destruct (PyFloat.truthy x); cbn; [|f_equal; lia].
  destruct (PyFloat.gt_int x (max_offset * 60)); reflexivity.
Qed.

Lemma count_cons p o os :
  count p (o :: os) = (if p o then 1 else 0) + count p os.
Proof. unfold count. cbn. destruct (p o); cbn [List.length]; lia. Qed.

Lemma count_heeded_le_parsed os : count heeded os <= count parsed os.
Proof.
  induction os as [|o os IH]; [reflexivity|]. rewrite !count_cons.
  destruct o as [x|]; cbn [heeded parsed]; [destruct (PyFloat.truthy x)|]; lia.
Qed.

Lemma exceeds_triggers max_offset o :
  exceeds max_offset o = false -> triggers max_offset o = false.
Proof. unfold triggers. intros ->. apply andb_false_r. Qed.

(** The loop passes over a run of servers none of which triggers the
    early return, counting those it heeds. *)
Lemma loop_app max_offset : forall pre rest n (st st' : state World) offsets,
  all pre st = (Ret offsets, st') ->
  Forall (fun o => triggers max_offset o = false) offsets ->
  loop max_offset (pre ++ rest) n st =
  loop max_offset rest (n + count heeded offsets) st'.
Proof.
  induction pre as [|s pre IH]; intros rest n st st' offsets H Hall.
  - cbn in H. injection H as <- <-. cbn [app].
    replace (n + count heeded []) with n by (unfold count; cbn; lia).
    reflexivity.
  - rewrite all_cons in H. cbn [app]. rewrite loop_cons.
    destruct (query s st) as [[o|e] st1]; [|discriminate].
    destruct (all pre st1) as [[os|e] st2] eqn:Hpre; [|discriminate].
    injection H as <- <-. inversion Hall as [|? ? Ho Hos]; subst.
    rewrite loop_body_spec, Ho, (IH rest _ _ _ _ Hpre Hos), count_cons.
    now rewrite Z.add_assoc.
Qed.

(** The loop runs to its end when no answer triggers the early return. *)
Lemma loop_exhausts max_offset servers n (st st' : state World) offsets :
  all servers st = (Ret offsets, st') ->
  Forall (fun o => triggers max_offset o = false) offsets ->
  loop max_offset servers n st = (Ret (Next (n + count heeded offsets)), st').
Proof.
  intros H Hall. rewrite <- (app_nil_r servers).
  now rewrite (loop_app max_offset servers [] n st st' offsets H Hall).
Qed.

(** The loop never touches the store. *)
Lemma loop_heap max_offset : forall servers n (st : state World),
  heap (snd (loop max_offset servers n st)) = heap st.
Proof.
  induction servers as [|s rest IH]; intros n st; [reflexivity|].
  rewrite loop_cons. destruct (query_effect s st) as [_ Hh].
  destruct (query s st) as [[o|e] st1]; cbn in Hh; [|exact Hh].
  destruct (loop_body max_offset o n); [rewrite IH|cbn]; exact Hh.
Qed.

End Run.

(** ** Properties of [time_check] *)

Section Verdicts.

Context {World : Type}.
Variable cmd_run : string -> World -> option string * World.

Abbreviation check := (time_check cmd_run).

Lemma list_truthy_elements (h : store) v :
  list_truthy h v = false <-> elements h v = [].
Proof.
  destruct v as [l|]; cbn; [|tauto].
  destruct (h l); split; intro; congruence.
Qed.

(** *** The merge of the chained list *)

(** Both lists non-empty: the object [ntp_servers] is extended. *)
Lemma merge_extends l c (st : state World) :
  heap st l <> [] -> heap st c <> [] ->
  merge_chained (Some l) true (Some c) st =
  (Ret (Some l),
   State (world st) (store_set (heap st) l (heap st l ++ heap st c))
         (calls st) (logged st)).
Proof.
  intros Hl Hc. unfold merge_chained. unfold_monad.
  assert (Tc : list_truthy (heap st) (Some c) = true)
    by (cbn; destruct (heap st c); congruence).
  assert (Tl : list_truthy (heap st) (Some l) = true)
    by (cbn; destruct (heap st l); congruence).
  now rewrite Tc, Tl.
Qed.

(** [ntp_servers] empty or [None], [chained] non-empty: the variable is
    bound to the chained object and nothing is stored. *)
Lemma merge_substitutes ntp_servers chained (st : state World) :
  list_truthy (heap st) ntp_servers = false ->
  list_truthy (heap st) chained = true ->
  merge_chained ntp_servers true chained st = (Ret chained, st).
Proof.
  intros Hs Hc. unfold merge_chained. unfold_monad. now rewrite Hc, Hs.
Qed.

(** Otherwise nothing happens. *)
Lemma merge_keeps ntp_servers extend_chained chained (st : state World) :
  extend_chained = false \/ list_truthy (heap st) chained = false ->
  merge_chained ntp_servers extend_chained chained st = (Ret ntp_servers, st).
Proof.
  intros [-> | Hc]; unfold merge_chained; [reflexivity|].
  destruct extend_chained; [|reflexivity]. unfold_monad. now rewrite Hc.
Qed.

(** The merge raises nothing: the guards keep [extend] away from [None]. *)
Lemma merge_returns ntp_servers extend_chained chained (st : state World) :
  exists v,
    merge_chained ntp_servers extend_chained chained st =
    (Ret v, after_merge ntp_servers extend_chained chained st)
    /\ elements (heap (after_merge ntp_servers extend_chained chained st)) v =
       working_list ntp_servers extend_chained chained st.
Proof.
  unfold after_merge, working_list.
  destruct extend_chained; [|eexists; split; reflexivity].
  destruct (list_truthy (heap st) chained) eqn:Hc.
  - destruct (list_truthy (heap st) ntp_servers) eqn:Hs.
    + destruct ntp_servers as [l|]; [|discriminate].
      destruct chained as [c|]; [|discriminate].
      rewrite merge_extends.
      * eexists; split; reflexivity.
      * cbn in Hs. destruct (heap st l); congruence.
      * cbn in Hc. destruct (heap st c); congruence.
    + rewrite (merge_substitutes _ _ _ Hs Hc). eexists; split; reflexivity.
  - rewrite merge_keeps by auto. eexists; split; reflexivity.
Qed.

(** [time_check], seen from its working list. *)
Lemma check_run ntp_servers max_offset nb_servers extend_chained chained
      (st : state World) :
  check ntp_servers max_offset nb_servers extend_chained chained st =
  let st1 := after_merge ntp_servers extend_chained chained st in
  match working_list ntp_servers extend_chained chained st with
  | [] => (Ret (false, None), add_log NoServersProvided st1)
  | servers =>
      match for_loop cmd_run max_offset servers 0 st1 with
      | (Ret (Return v), st2) => (Ret v, st2)
      | (Ret (Next n), st2) =>
          if n <? nb_servers
          then (Ret (false, Some false), add_log (ServersReached n nb_servers) st2)
          else (Ret (true, Some true), st2)
      | (Raise e, st2) => (Raise e, st2)
      end
  end.
Proof.
  destruct (merge_returns ntp_servers extend_chained chained st) as (v & Hm & Hw).
  cbv zeta. rewrite <- Hw. unfold time_check. unfold bind at 1. rewrite Hm.
  set (st1 := after_merge _ _ _ _). unfold bind at 1. unfold truth at 1.
  destruct (list_truthy (heap st1) v) eqn:Ht; cbn [negb].
  - assert (He : elements (heap st1) v <> [])
      by (intro He; apply list_truthy_elements in He; congruence).
    destruct v as [l|]; [|discriminate].
    unfold bind at 1. unfold iterate at 1. unfold bind at 1. cbn [elements] in *.
    destruct (heap st1 l) as [|s rest] eqn:Hel; [congruence|].
    destruct (for_loop cmd_run max_offset (s :: rest) 0 st1) as [[[n|r]|e] st2];
      try reflexivity.
    destruct (n <? nb_servers); reflexivity.
  - apply list_truthy_elements in Ht. rewrite Ht. reflexivity.
Qed.

(** The merge leaves the world, the calls made and the log as they were. *)
Lemma after_merge_frame ntp_servers extend_chained chained (st : state World) :
  let st1 := after_merge ntp_servers extend_chained chained st in
  world st1 = world st /\ calls st1 = calls st /\ logged st1 = logged st.
Proof.
  unfold after_merge, merge_chained. unfold_monad.
  destruct extend_chained; cbn; auto.
  destruct (list_truthy (heap st) chained); cbn; auto.
  destruct (list_truthy (heap st) ntp_servers); cbn; auto.
  destruct ntp_servers, chained; cbn; auto.
Qed.

End Verdicts.

(** ** The verdicts *)

(** C1, as the code has it: when the working list is not empty, every
    server answers with no parsed offset above [max_offset * 60], and fewer
    than [nb_servers] servers yielded a parseable offset, [time_check]
    returns [(False, False)], having logged how many servers it counted.
    (The spec has [(True, False)] here.) *)
Theorem quorum_not_met_false_false {World : Type}
    (cmd_run : string -> World -> option string * World)
    ntp_servers max_offset nb_servers extend_chained chained
    (st st2 : state World) offsets :
  working_list ntp_servers extend_chained chained st <> [] ->
  query_all cmd_run (working_list ntp_servers extend_chained chained st)
            (after_merge ntp_servers extend_chained chained st)
    = (Ret offsets, st2) ->
  Forall (fun o => exceeds max_offset o = false) offsets ->
  count parsed offsets < nb_servers ->
  time_check cmd_run ntp_servers max_offset nb_servers extend_chained chained st
    = (Ret (false, Some false),
       add_log (ServersReached (count heeded offsets) nb_servers) st2).
Proof.
  intros Hne Hall Hno Hlt. rewrite check_run. cbv zeta.
  destruct (working_list ntp_servers extend_chained chained st) as [|s rest] eqn:Hw;
    [congruence|].
  rewrite (loop_exhausts cmd_run max_offset _ 0 _ _ _ Hall).
  - pose proof (count_heeded_le_parsed offsets).
    cbn [Z.add]. destruct (Z.ltb_spec (count heeded offsets) nb_servers); [reflexivity|lia].
  - eapply Forall_impl; [|exact Hno]. intros o. apply exceeds_triggers.
Qed.

(** Servers [a] and [b], both near, with a quorum of four. *)
Lemma quorum_not_met_false_false_witness :
  fst (time_check (Mock.cmd_run Mock.near) (Some 0%nat) 15 4 true None
                  (Mock.start [["a"; "b"]]))
  = Ret (false, Some false).
Proof.
  erewrite quorum_not_met_false_false;
    [ reflexivity
    | vm_compute; discriminate
    | vm_compute; reflexivity
    | repeat constructor
    | vm_compute; reflexivity ].
Defined.

(** C1 as the spec states it fails: with servers [a] and [b] both near and
    a quorum of four, every server answers, no offset exceeds 900 seconds,
    two servers yielded an offset, and the verdict is not [(True, False)]. *)
Lemma quorum_not_met_not_true_false :
  let run := time_check (Mock.cmd_run Mock.near) (Some 0%nat) 15 4 true None
                        (Mock.start [["a"; "b"]]) in
  let answers := query_all (Mock.cmd_run Mock.near) ["a"; "b"]
                           (Mock.start [["a"; "b"]]) in
  (exists offsets,
      fst answers = Ret offsets
      /\ Forall (fun o => exceeds 15 o = false) offsets
      /\ count parsed offsets = 2)
  /\ fst run <> Ret (true, Some false).
Proof.
  split.
  - eexists. split; [vm_compute; reflexivity|]. split; [repeat constructor|reflexivity].
  - vm_compute. discriminate.
Qed.

(** C3: let the working list be [pre ++ s :: post], so that [s] is the
    server of index [length pre].  If the servers of [pre] answer with no
    parsed offset above [max_offset * 60], and [s], queried next, answers
    with a parsed offset above it, then [time_check] returns
    [(True, False)] in the state that query left, and the commands given to
    [cmd.run] are those for [pre] and [s], in order: no server of [post] is
    queried.  [max_offset] is not negative, as the spec requires. *)
Theorem first_violation_short_circuits {World : Type}
    (cmd_run : string -> World -> option string * World)
    ntp_servers max_offset nb_servers extend_chained chained
    (st st1 st2 : state World) pre s post offsets x :
  0 <= max_offset ->
  working_list ntp_servers extend_chained chained st = (pre ++ s :: post)%list ->
  query_all cmd_run pre (after_merge ntp_servers extend_chained chained st)
    = (Ret offsets, st1) ->
  Forall (fun o => exceeds max_offset o = false) offsets ->
  _query_ntp_server cmd_run s st1 = (Ret (Some x), st2) ->
  PyFloat.gt_int x (max_offset * 60) = true ->
  time_check cmd_run ntp_servers max_offset nb_servers extend_chained chained st
    = (Ret (true, Some false), st2)
  /\ calls st2 = (calls st ++ map ntpdate_command (pre ++ [s]))%list.
Proof.
  intros Hmax Hw Hpre Hno Hs Hgt. split.
  - rewrite check_run. cbv zeta. rewrite Hw.
    destruct (pre ++ s :: post)%list as [|s0 rest] eqn:Hl;
      [now destruct pre|]. rewrite <- Hl.
    rewrite (loop_app cmd_run max_offset pre (s :: post) 0 _ _ _ Hpre).
    + rewrite loop_cons, Hs. unfold loop_body.
      rewrite (PyFacts.gt_nonneg_truthy x (max_offset * 60)) by (auto; lia).
      cbn [negb]. now rewrite Hgt.
    + eapply Forall_impl; [|exact Hno]. intros o. apply exceeds_triggers.
  - destruct (all_effect cmd_run _ _ _ _ Hpre) as (Hc & _ & _).
    destruct (query_effect cmd_run s st1) as [Hc' _]. rewrite Hs in Hc'. cbn in Hc'.
    destruct (after_merge_frame ntp_servers extend_chained chained st) as (_ & Hc0 & _).
    rewrite Hc', Hc, Hc0, map_app, app_assoc. reflexivity.
Qed.

(** Servers [a], [b], [c], [d] with [c] 1000 seconds ahead: the verdict is
    [(True, False)] and [d] is not queried. *)
Lemma first_violation_short_circuits_witness :
  let run := time_check (Mock.cmd_run Mock.third_far) (Some 0%nat) 15 4 true None
                        (Mock.start [["a"; "b"; "c"; "d"]]) in
  fst run = Ret (true, Some false)
  /\ calls (snd run) = ["ntpdate -q a"; "ntpdate -q b"; "ntpdate -q c"].
Proof.
  cbv zeta.
  assert (H : exists st2,
             time_check (Mock.cmd_run Mock.third_far) (Some 0%nat) 15 4 true None
                        (Mock.start [["a"; "b"; "c"; "d"]])
             = (Ret (true, Some false), st2)
             /\ calls st2 = ["ntpdate -q a"; "ntpdate -q b"; "ntpdate -q c"]).
  { eexists.
    refine (first_violation_short_circuits (Mock.cmd_run Mock.third_far)
              (Some 0%nat) 15 4 true None (Mock.start [["a"; "b"; "c"; "d"]])
              _ _ ["a"; "b"] "c" ["d"] _ _ _ _ _ _ _ _);
      [ lia
      | vm_compute; reflexivity
      | vm_compute; reflexivity
      | repeat constructor
      | vm_compute; reflexivity
      | vm_compute; reflexivity ]. }
  destruct H as (st2 & Hv & Hc). rewrite Hv. split; [reflexivity | exact Hc].
Defined.

(** The early return of the loop is always [(True, False)]. *)
Lemma loop_return {World : Type}
    (cmd_run : string -> World -> option string * World) max_offset :
  forall servers n (st st' : state World) v,
    for_loop cmd_run max_offset servers n st = (Ret (Return v), st') ->
    v = (true, Some false).
Proof.
  induction servers as [|s rest IH]; intros n st st' v H; [discriminate|].
  rewrite loop_cons in H.
  destruct (_query_ntp_server cmd_run s st) as [[o|e] st1]; [|discriminate].
  rewrite loop_body_spec in H. destruct (triggers max_offset o).
  - congruence.
  - eapply IH, H.
Qed.

(** [time_check] stores only what the merge stores. *)
Lemma check_heap {World : Type}
    (cmd_run : string -> World -> option string * World)
    ntp_servers max_offset nb_servers extend_chained chained (st : state World) :
  heap (snd (time_check cmd_run ntp_servers max_offset nb_servers
                        extend_chained chained st))
  = heap (after_merge ntp_servers extend_chained chained st).
Proof.
  rewrite check_run. cbv zeta.
  destruct (working_list ntp_servers extend_chained chained st) as [|s rest];
    [reflexivity|].
  pose proof (loop_heap cmd_run max_offset (s :: rest) 0
                (after_merge ntp_servers extend_chained chained st)) as Hh.
  destruct (for_loop cmd_run max_offset (s :: rest) 0 _) as [[[n|v]|e] st2];
    cbn in Hh |- *; try exact Hh.
  destruct (n <? nb_servers); exact Hh.
Qed.

(** The working list is empty exactly when [ntp_servers] is empty or [None]
    and the chained list is not merged in. *)
Lemma working_list_empty {World : Type}
    ntp_servers extend_chained chained (st : state World) :
  working_list ntp_servers extend_chained chained st = [] <->
  list_truthy (heap st) ntp_servers = false
  /\ (extend_chained = false \/ list_truthy (heap st) chained = false).
Proof.
  unfold working_list.
  destruct extend_chained.
  - destruct (list_truthy (heap st) chained) eqn:Hc.
    + destruct (list_truthy (heap st) ntp_servers) eqn:Hs.
      * destruct ntp_servers as [l|]; [|discriminate].
        destruct chained as [c|]; [|discriminate].
        cbn in Hs, Hc. rewrite merge_extends.
        -- cbn. unfold store_set. rewrite Nat.eqb_refl.
           split; [|intros [? _]; discriminate].
           intro H. apply app_eq_nil in H as [H _]. now rewrite H in Hs.
        -- intro H. now rewrite H in Hs.
        -- intro H. now rewrite H in Hc.
      * rewrite (merge_substitutes _ _ _ Hs Hc).
        split; [|intros [_ [?|?]]; discriminate].
        intro H. apply list_truthy_elements in H. congruence.
    + rewrite merge_keeps by auto. rewrite <- list_truthy_elements. tauto.
  - rewrite merge_keeps by auto. rewrite <- list_truthy_elements. tauto.
Qed.

(** C5: when the working list is empty after the merge, [time_check]
    returns [(False, None)]; it has logged the fact and done nothing else,
    so no command was given to [cmd.run].  That is the case, in particular,
    when [ntp_servers] and [chained] are each empty or [None] and
    [extend_chained] is true. *)
Theorem empty_working_list_false_none {World : Type}
    (cmd_run : string -> World -> option string * World)
    ntp_servers max_offset nb_servers extend_chained chained (st : state World) :
  (working_list ntp_servers extend_chained chained st = [] ->
   time_check cmd_run ntp_servers max_offset nb_servers extend_chained chained st
     = (Ret (false, None), add_log NoServersProvided st)
   /\ calls (add_log NoServersProvided st) = calls st)
  /\ (list_truthy (heap st) ntp_servers = false ->
      list_truthy (heap st) chained = false ->
      time_check cmd_run ntp_servers max_offset nb_servers true chained st
        = (Ret (false, None), add_log NoServersProvided st)).
Proof.
  assert (main : forall ext,
             working_list ntp_servers ext chained st = [] ->
             time_check cmd_run ntp_servers max_offset nb_servers ext chained st
             = (Ret (false, None), add_log NoServersProvided st)).
  { intros ext H. rewrite check_run. cbv zeta. rewrite H.
    apply working_list_empty in H as [Hs Hc].
    unfold after_merge. destruct ext.
    - destruct Hc as [Hc|Hc]; [discriminate|]. now rewrite merge_keeps by auto.
    - now rewrite merge_keeps by auto. }
  split.
  - intro H. split; [now apply main | reflexivity].
  - intros Hs Hc. apply main. apply working_list_empty. auto.
Qed.

(** No servers and no chained value. *)
Lemma empty_working_list_false_none_witness :
  time_check (Mock.cmd_run Mock.near) (Some 0%nat) 15 4 true None (Mock.start [[]])
  = (Ret (false, None), add_log NoServersProvided (Mock.start [[]])).
Proof.
  apply (proj1 (empty_working_list_false_none (Mock.cmd_run Mock.near)
                  (Some 0%nat) 15 4 true None (Mock.start [[]]))).
  vm_compute. reflexivity.
Defined.

(** A run over a working list that is not empty does not end in the
    input-error verdict [(False, None)]. *)
Lemma check_nonempty_not_input_error {World : Type}
    (cmd_run : string -> World -> option string * World)
    ntp_servers max_offset nb_servers extend_chained chained (st : state World) :
  working_list ntp_servers extend_chained chained st <> [] ->
  fst (time_check cmd_run ntp_servers max_offset nb_servers
                  extend_chained chained st) <> Ret (false, None).
Proof.
  intro Hne. rewrite check_run. cbv zeta.
  destruct (working_list ntp_servers extend_chained chained st) as [|s rest];
    [congruence|].
  destruct (for_loop cmd_run max_offset (s :: rest) 0 _) as [[[n|v]|e] st2] eqn:Hl;
    cbn.
  - destruct (n <? nb_servers); discriminate.
  - apply loop_return in Hl. subst v. discriminate.
  - discriminate.
Qed.

(** C6: with [extend_chained] true and a non-empty chained list,
    - when [ntp_servers] is non-empty, a call of [time_check] appends the
      chained elements to that very object and then runs its loop over the
      old list followed by the chained one: what the call returns, and the
      state it leaves, are what the loop over that longer list gives, and
      the object holds the longer list afterwards;
    - when [ntp_servers] is empty or [None], the call runs its loop over
      the chained list; the merge comes before the emptiness test, for the
      call runs exactly as a call on the chained list alone does and its
      verdict is not [(False, None)];
    and with [extend_chained] false the value of [chained] has no bearing on
    the call, which tests and runs over [ntp_servers] as it was passed. *)
Theorem chained_list_is_merged_first {World : Type}
    (cmd_run : string -> World -> option string * World)
    ntp_servers max_offset nb_servers chained (st : state World) :
  (list_truthy (heap st) chained = true ->
   (list_truthy (heap st) ntp_servers = true ->
    exists l,
      let merged :=
        (elements (heap st) ntp_servers ++ elements (heap st) chained)%list in
      ntp_servers = Some l
      /\ time_check cmd_run ntp_servers max_offset nb_servers true chained st
         = conclude nb_servers
             (for_loop cmd_run max_offset merged 0 (with_list l merged st))
      /\ heap (snd (time_check cmd_run ntp_servers max_offset nb_servers
                               true chained st)) l
         = merged
      /\ heap (after_merge ntp_servers true chained st) l = merged
      /\ working_list ntp_servers true chained st = merged)
   /\ (list_truthy (heap st) ntp_servers = false ->
       time_check cmd_run ntp_servers max_offset nb_servers true chained st
       = conclude nb_servers
           (for_loop cmd_run max_offset (elements (heap st) chained) 0 st)
       /\ working_list ntp_servers true chained st = elements (heap st) chained
       /\ time_check cmd_run ntp_servers max_offset nb_servers true chained st
          = time_check cmd_run chained max_offset nb_servers false None st
       /\ fst (time_check cmd_run ntp_servers max_offset nb_servers true chained st)
          <> Ret (false, None)))
  /\ (forall chained',
        time_check cmd_run ntp_servers max_offset nb_servers false chained st
        = time_check cmd_run ntp_servers max_offset nb_servers false chained' st)
  /\ time_check cmd_run ntp_servers max_offset nb_servers false chained st
     = match elements (heap st) ntp_servers with
       | [] => (Ret (false, None), add_log NoServersProvided st)
       | servers =>
           conclude nb_servers (for_loop cmd_run max_offset servers 0 st)
       end.
Proof.
  assert (Hfalse :
            time_check cmd_run ntp_servers max_offset nb_servers false chained st
            = match elements (heap st) ntp_servers with
              | [] => (Ret (false, None), add_log NoServersProvided st)
              | servers =>
                  conclude nb_servers (for_loop cmd_run max_offset servers 0 st)
              end).
  { rewrite check_run. cbv zeta. unfold after_merge, working_list.
    rewrite merge_keeps by auto. cbn [fst snd].
    destruct (elements (heap st) ntp_servers); reflexivity. }
  split; [intro Hc; split; intro Hs | split; [|exact Hfalse]].
  - destruct ntp_servers as [l|]; [|discriminate].
    destruct chained as [c|]; [|discriminate].
    exists l. cbv zeta. cbn [elements] in *.
    assert (Hl : heap st l <> []) by (intro H; cbn in Hs; now rewrite H in Hs).
    assert (Hch : heap st c <> []) by (intro H; cbn in Hc; now rewrite H in Hc).
    assert (Hm : merge_chained (Some l) true (Some c) st
                 = (Ret (Some l), with_list l (heap st l ++ heap st c) st))
      by (now apply merge_extends).
    assert (Hh : heap (with_list l (heap st l ++ heap st c) st) l
                 = (heap st l ++ heap st c)%list)
      by (cbn; unfold store_set; now rewrite Nat.eqb_refl).
    assert (Hw : working_list (Some l) true (Some c) st
                 = (heap st l ++ heap st c)%list)
      by (unfold working_list; rewrite Hm; exact Hh).
    assert (Ha : after_merge (Some l) true (Some c) st
                 = with_list l (heap st l ++ heap st c) st)
      by (unfold after_merge; now rewrite Hm).
    assert (Hrun : time_check cmd_run (Some l) max_offset nb_servers true (Some c) st
                   = conclude nb_servers
                       (for_loop cmd_run max_offset (heap st l ++ heap st c) 0
                          (with_list l (heap st l ++ heap st c) st))).
    { rewrite check_run. cbv zeta. rewrite Hw, Ha.
      destruct (heap st l ++ heap st c)%list as [|s rest] eqn:Hmerged;
        [|reflexivity].
      apply app_eq_nil in Hmerged as [H _]. congruence. }
    split; [reflexivity|]. split; [exact Hrun|]. split; [|split].
    + rewrite check_heap, Ha. exact Hh.
    + rewrite Ha. exact Hh.
    + exact Hw.
  - assert (Hw : working_list ntp_servers true chained st = elements (heap st) chained)
      by (unfold working_list; now rewrite (merge_substitutes _ _ _ Hs Hc)).
    assert (Ha : after_merge ntp_servers true chained st = st)
      by (unfold after_merge; now rewrite (merge_substitutes _ _ _ Hs Hc)).
    assert (Hne : elements (heap st) chained <> [])
      by (intro H; apply list_truthy_elements in H; congruence).
    split; [|split; [exact Hw|split]].
    + rewrite check_run. cbv zeta. rewrite Hw, Ha.
      destruct (elements (heap st) chained); [congruence | reflexivity].
    + rewrite !check_run. cbv zeta. unfold after_merge. rewrite Hw.
      unfold working_list.
      rewrite (merge_substitutes _ _ _ Hs Hc), merge_keeps by auto.
      reflexivity.
    + apply check_nonempty_not_input_error. now rewrite Hw.
  - intro chained'. rewrite !check_run. cbv zeta.
    unfold after_merge, working_list. now rewrite !merge_keeps by auto.
Qed.

(** The caller's list [a; b] and the chained list [c; d], all four near: the
    call queries [a], [b], [c] and [d], passes the quorum of four and leaves
    [a; b; c; d] in the caller's list.  And with no servers of its own and
    the chained list [a; b; c; d], the four chained servers are the ones
    queried. *)
Lemma chained_list_is_merged_first_witness :
  (let run := time_check (Mock.cmd_run Mock.near) (Some 0%nat) 15 4 true (Some 1%nat)
                         (Mock.start [["a"; "b"]; ["c"; "d"]]) in
   fst run = Ret (true, Some true)
   /\ calls (snd run)
      = ["ntpdate -q a"; "ntpdate -q b"; "ntpdate -q c"; "ntpdate -q d"]
   /\ heap (snd run) 0%nat = ["a"; "b"; "c"; "d"])
  /\ (let run := time_check (Mock.cmd_run Mock.near) None 15 4 true (Some 0%nat)
                            (Mock.start [["a"; "b"; "c"; "d"]]) in
      fst run = Ret (true, Some true)
      /\ calls (snd run)
         = ["ntpdate -q a"; "ntpdate -q b"; "ntpdate -q c"; "ntpdate -q d"]
      /\ fst run <> Ret (false, None)).
Proof.
  cbv zeta. split.
  - destruct (proj1 (proj1 (chained_list_is_merged_first (Mock.cmd_run Mock.near)
                              (Some 0%nat) 15 4 (Some 1%nat)
                              (Mock.start [["a"; "b"]; ["c"; "d"]]))
                       eq_refl) eq_refl)
      as (l & Hl & Hrun & Hheap & _).
    injection Hl as <-. cbv zeta in Hrun, Hheap.
    split; [|split]; [rewrite Hrun | rewrite Hrun | exact Hheap];
      vm_compute; reflexivity.
  - destruct (proj2 (proj1 (chained_list_is_merged_first (Mock.cmd_run Mock.near)
                              None 15 4 (Some 0%nat)
                              (Mock.start [["a"; "b"; "c"; "d"]]))
                       eq_refl) eq_refl)
      as (Hrun & _ & _ & Hne).
    split; [|split]; [rewrite Hrun | rewrite Hrun | exact Hne];
      vm_compute; reflexivity.
Defined.

(** C10: with [extend_chained] true and both lists non-empty, the list
    object the caller passed as [ntp_servers] holds, after the call, its old
    elements followed by the chained ones; it is not as it was. *)
Theorem caller_list_is_extended {World : Type}
    (cmd_run : string -> World -> option string * World)
    l c max_offset nb_servers (st : state World) :
  heap st l <> [] ->
  heap st c <> [] ->
  let st' := snd (time_check cmd_run (Some l) max_offset nb_servers true (Some c) st) in
  heap st' l = (heap st l ++ heap st c)%list
  /\ heap st' l <> heap st l.
Proof.
  intros Hl Hc st'. subst st'. rewrite check_heap. unfold after_merge.
  rewrite merge_extends by assumption. cbn. unfold store_set.
  rewrite Nat.eqb_refl. split; [reflexivity|].
  intro H. apply (f_equal (@List.length string)) in H.
  rewrite length_app in H. destruct (heap st c); [congruence|]. cbn in H. lia.
Qed.

(** The caller's list [a; b] and the chained list [c; d]. *)
Lemma caller_list_is_extended_witness :
  heap (snd (time_check (Mock.cmd_run Mock.near) (Some 0%nat) 15 4 true (Some 1%nat)
                        (Mock.start [["a"; "b"]; ["c"; "d"]]))) 0%nat
  = ["a"; "b"; "c"; "d"].
Proof.
  apply (caller_list_is_extended (Mock.cmd_run Mock.near) 0%nat 1%nat 15 4
           (Mock.start [["a"; "b"]; ["c"; "d"]]));
    vm_compute; discriminate.
Defined.

(** ** The body of the loop *)

(** C7: the test against the threshold looks one way only.  The body of the
    loop returns early only on a parsed offset strictly greater than
    [max_offset * 60], and then with [(True, False)].  On a parsed offset
    below zero, whatever its size, it goes on to the next server with the
    count raised by one; so does the loop as a whole.  [max_offset] is not
    negative, as the spec requires. *)
Theorem threshold_is_one_directional {World : Type}
    (cmd_run : string -> World -> option string * World) max_offset :
  0 <= max_offset ->
  (forall offset n v,
      loop_body max_offset offset n = Return v ->
      v = (true, Some false)
      /\ exists x, offset = Some x /\ PyFloat.gt_int x (max_offset * 60) = true)
  /\ (forall x n,
         PyFloat.lt_int x 0 = true ->
         loop_body max_offset (Some x) n = Next (n + 1))
  /\ (forall s rest n (st st' : state World) x,
         _query_ntp_server cmd_run s st = (Ret (Some x), st') ->
         PyFloat.lt_int x 0 = true ->
         for_loop cmd_run max_offset (s :: rest) n st
         = for_loop cmd_run max_offset rest (n + 1) st').
Proof.
  intro Hmax.
  assert (body : forall x n, PyFloat.lt_int x 0 = true ->
                             loop_body max_offset (Some x) n = Next (n + 1)).
  { intros x n Hneg. unfold loop_body.
    rewrite (PyFacts.negative_truthy x Hneg). cbn [negb].
    now rewrite (PyFacts.negative_not_gt x (max_offset * 60)) by (auto; lia). }
  split; [|split].
  - intros offset n v H. unfold loop_body in H.
    destruct offset as [x|]; [|discriminate].
    destruct (PyFloat.truthy x); cbn [negb] in H; [|discriminate].
    destruct (PyFloat.gt_int x (max_offset * 60)) eqn:Hgt; [|discriminate].
    injection H as <-. eauto.
  - exact body.
  - intros s rest n st st' x Hq Hneg. now rewrite loop_cons, Hq, body.
Qed.

(** A server a thousand days behind the host is counted like any other. *)
Lemma threshold_is_one_directional_witness :
  fst (_query_ntp_server (Mock.cmd_run Mock.far_behind) "a" (Mock.start [["a"]]))
  = Ret (Some (S754_finite true 5798205883154432 (-26)))
  /\ loop_body 15 (Some (S754_finite true 5798205883154432 (-26))) 0 = Next 1.
Proof.
  split; [vm_compute; reflexivity|].
  apply (proj1 (proj2 (threshold_is_one_directional (Mock.cmd_run Mock.far_behind)
                         15 ltac:(lia)))).
  vm_compute. reflexivity.
Defined.

(** C9: an offset that parsed as zero, of either sign, is dealt with as a
    failed query is.  The body of the loop goes on to the next server with
    the count unchanged, as it does on [None]; it does so whatever the
    threshold, so a zero offset never brings the early return; and the loop
    as a whole carries on with the servers that remain and the same
    count. *)
Theorem zero_offset_is_skipped {World : Type}
    (cmd_run : string -> World -> option string * World)
    max_offset (sign : bool) n :
  loop_body max_offset (Some (S754_zero sign)) n = Next n
  /\ loop_body max_offset (Some (S754_zero sign)) n = loop_body max_offset None n
  /\ (forall s rest (st st' : state World),
         _query_ntp_server cmd_run s st = (Ret (Some (S754_zero sign)), st') ->
         for_loop cmd_run max_offset (s :: rest) n st
         = for_loop cmd_run max_offset rest n st')
  /\ (forall s rest (st st' : state World),
         _query_ntp_server cmd_run s st = (Ret None, st') ->
         for_loop cmd_run max_offset (s :: rest) n st
         = for_loop cmd_run max_offset rest n st').
Proof.
  repeat split.
  - intros s rest st st' Hq. now rewrite loop_cons, Hq.
  - intros s rest st st' Hq. now rewrite loop_cons, Hq.
Qed.

(** A server in step with the host: its offset parses as [0.0], which is
    within any threshold that is not negative, and the loop passes it by. *)
Lemma zero_offset_is_skipped_witness :
  fst (_query_ntp_server (Mock.cmd_run Mock.in_step) "a" (Mock.start [["a"]]))
  = Ret (Some (S754_zero false))
  /\ exceeds 15 (Some (S754_zero false)) = false
  /\ fst (for_loop (Mock.cmd_run Mock.in_step) 15 ["a"] 0 (Mock.start [["a"]]))
     = Ret (Next 0).
Proof.
  split; [vm_compute; reflexivity|]. split; [reflexivity|].
  erewrite (proj1 (proj2 (proj2 (zero_offset_is_skipped (Mock.cmd_run Mock.in_step)
                                    15 false 0))) "a" []);
    [reflexivity | vm_compute; reflexivity].
Defined.

(** ** Parsing the response *)

(** An absent response is logged and gives [None]. *)
Lemma parse_offset_absent {World : Type} (st : state World) :
  parse_offset None st = (Ret None, add_log (UnexpectedReturnData None) st).
Proof. reflexivity. Qed.

(** A response whose last line lacks the word [offset] is logged and gives
    [None]. *)
Lemma parse_offset_missing_token {World : Type} text (st : state World) :
  PyStr.occurs "offset" (last (PyStr.split PyStr.newline text) "") = false ->
  parse_offset (Some text) st
  = (Ret None, add_log (UnexpectedReturnData (Some text)) st).
Proof.
  intro H. unfold parse_offset, offset_expr.
  now rewrite (PyFacts.split_without_sep _ _ H).
Qed.

(** A response with nothing but whitespace after the word is logged and
    gives [None]. *)
Lemma parse_offset_nothing_after_token {World : Type} text after (st : state World) :
  nth_error (PyStr.split "offset" (last (PyStr.split PyStr.newline text) "")) 1
  = Some after ->
  PyStr.split_ws after = [] ->
  parse_offset (Some text) st
  = (Ret None, add_log (UnexpectedReturnData (Some text)) st).
Proof.
  intros H1 H2. unfold parse_offset, offset_expr. now rewrite H1, H2.
Qed.

(** A token after the word that [float] refuses raises [ValueError], which
    the [except] clause does not name: nothing is logged and the exception
    leaves the function. *)
Lemma parse_offset_not_a_number {World : Type} text after token rest
      (st : state World) :
  nth_error (PyStr.split "offset" (last (PyStr.split PyStr.newline text) "")) 1
  = Some after ->
  PyStr.split_ws after = token :: rest ->
  PyFloat.of_string token = None ->
  parse_offset (Some text) st = (Raise ValueError, st).
Proof.
  intros H1 H2 H3. unfold parse_offset, offset_expr. rewrite H1, H2.
  cbn [nth_error]. now rewrite H3.
Qed.

(** C2, at the input on which the code departs from it: the output
    [server a, offset unknown] has a word where the number should be.
    [float] raises [ValueError], which leaves [_query_ntp_server] and then
    [time_check]; nothing is logged and no verdict is returned. *)
Lemma not_a_number_raises_ValueError :
  _query_ntp_server (Mock.cmd_run Mock.garbled) "a" (Mock.start [["a"]])
  = (Raise ValueError, State tt (Mock.objects [["a"]]) ["ntpdate -q a"] [])
  /\ time_check (Mock.cmd_run Mock.garbled) (Some 0%nat) 15 1 true None
                (Mock.start [["a"]])
     = (Raise ValueError, State tt (Mock.objects [["a"]]) ["ntpdate -q a"] []).
Proof. split; vm_compute; reflexivity. Qed.

(** C8, as the code has it: from the response
    [ignored line\nserver x, offset -0.0123 delay 0.01], where whitespace
    follows the number, the parsed offset is the float [-0.0123], the
    binary64 number nearest to -123/10000, and nothing is logged; from
    [no such token here] the result is [None]; from an absent response the
    result is [None]; those two are logged. *)
Theorem parse_offset_examples {World : Type} (st : state World) :
  parse_offset (Some Mock.response_with_space) st
    = (Ret (Some Mock.minus_0_0123), st)
  /\ PyFloat.nearest_to Mock.minus_0_0123 (-123) 10000 = true
  /\ parse_offset (Some "no such token here") st
     = (Ret None, add_log (UnexpectedReturnData (Some "no such token here")) st)
  /\ parse_offset None st
     = (Ret None, add_log (UnexpectedReturnData None) st).
Proof.
  split; [|split; [|split]].
  - unfold parse_offset.
    replace (offset_expr (Some Mock.response_with_space))
      with (Ret Mock.minus_0_0123) by (vm_compute; reflexivity).
    reflexivity.
  - vm_compute. reflexivity.
  - apply parse_offset_missing_token. vm_compute. reflexivity.
  - apply parse_offset_absent.
Qed.

(** C8 as the spec states it fails: in the response
    [ignored line\nserver x, offset -0.0123, delay 0.01] the first token
    after the word is [-0.0123,], comma included; [float] refuses it, and
    the result is a [ValueError], not the float [-0.0123]. *)
Lemma parse_offset_with_comma_raises :
  nth_error
    (PyStr.split_ws
       (nth 1 (PyStr.split "offset"
                 (last (PyStr.split PyStr.newline Mock.response_with_comma) ""))
            "")) 0
  = Some "-0.0123,"
  /\ parse_offset (Some Mock.response_with_comma) (Mock.start [])
     = (Raise ValueError, Mock.start [])
  /\ fst (parse_offset (Some Mock.response_with_comma) (Mock.start []))
     <> Ret (Some Mock.minus_0_0123).
Proof.
  split; [vm_compute; reflexivity|].
  split; [vm_compute; reflexivity|]. vm_compute. discriminate.
Qed.

(** ** The quorum *)

(** C4, at the input on which the code departs from it: one server, in
    step with the host, and a quorum of one.  The server answers, its offset
    parses as [0.0] and does not exceed 900 seconds, so one server returned
    a parseable offset within the threshold; the loop counts none, and the
    verdict is [(False, False)], not [(True, True)]. *)
Lemma zero_offset_fails_quorum :
  fst (query_all (Mock.cmd_run Mock.in_step) ["a"] (Mock.start [["a"]]))
  = Ret [Some (S754_zero false)]
  /\ exceeds 15 (Some (S754_zero false)) = false
  /\ 1 <= count parsed [Some (S754_zero false)]
  /\ time_check (Mock.cmd_run Mock.in_step) (Some 0%nat) 15 1 true None
                (Mock.start [["a"]])
     = (Ret (false, Some false),
        State tt (Mock.objects [["a"]]) ["ntpdate -q a"] [ServersReached 0 1]).
Proof.
  split; [vm_compute; reflexivity|]. split; [reflexivity|].
  split; [vm_compute; discriminate|]. vm_compute. reflexivity.
Qed.

(** What the code does give: when the working list is not empty, every
    server answers with no parsed offset above [max_offset * 60], and at
    least [nb_servers] of the offsets are not zero, the verdict is
    [(True, True)]. *)
Theorem quorum_met_true_true {World : Type}
    (cmd_run : string -> World -> option string * World)
    ntp_servers max_offset nb_servers extend_chained chained
    (st st2 : state World) offsets :
  working_list ntp_servers extend_chained chained st <> [] ->
  query_all cmd_run (working_list ntp_servers extend_chained chained st)
            (after_merge ntp_servers extend_chained chained st)
    = (Ret offsets, st2) ->
  Forall (fun o => exceeds max_offset o = false) offsets ->
  nb_servers <= count heeded offsets ->
  time_check cmd_run ntp_servers max_offset nb_servers extend_chained chained st
    = (Ret (true, Some true), st2).
Proof.
  intros Hne Hall Hno Hge. rewrite check_run. cbv zeta.
  destruct (working_list ntp_servers extend_chained chained st) as [|s rest] eqn:Hw;
    [congruence|].
  rewrite (loop_exhausts cmd_run max_offset _ 0 _ _ _ Hall).
  - cbn [Z.add].
    destruct (Z.ltb_spec (count heeded offsets) nb_servers); [lia|reflexivity].
  - eapply Forall_impl; [|exact Hno]. intros o. apply exceeds_triggers.
Qed.

(** The scenario of the spec: servers [a], [b], [c], [d] at 2.0, -1.0, 5.0
    and 0.5 seconds, a threshold of 15 minutes and a quorum of four. *)
Lemma quorum_met_true_true_witness :
  fst (time_check (Mock.cmd_run Mock.near) (Some 0%nat) 15 4 true None
                  (Mock.start [["a"; "b"; "c"; "d"]]))
  = Ret (true, Some true).
Proof.
  erewrite quorum_met_true_true;
    [ reflexivity
    | vm_compute; discriminate
    | vm_compute; reflexivity
    | repeat constructor
    | vm_compute; discriminate ].
Defined.

(** ** What a run can do *)

Lemma loop_raises {World : Type}
    (cmd_run : string -> World -> option string * World) max_offset :
  forall servers n (st st' : state World) e,
    for_loop cmd_run max_offset servers n st = (Raise e, st') -> e = ValueError.
Proof.
  induction servers as [|s rest IH]; intros n st st' e H; [discriminate|].
  rewrite loop_cons in H.
  destruct (_query_ntp_server cmd_run s st) as [[o|e'] st1] eqn:Hq.
  - destruct (loop_body max_offset o n); [eapply IH, H | discriminate].
  - injection H as <- <-. eapply query_raises, Hq.
Qed.

(** The loop queries the servers in list order, each once, and stops
    somewhere: the commands it gives to [cmd.run] are those of the first [k]
    servers, for some [k]. *)
Lemma loop_calls {World : Type}
    (cmd_run : string -> World -> option string * World) max_offset :
  forall servers n (st : state World),
  exists k,
    calls (snd (for_loop cmd_run max_offset servers n st))
    = (calls st ++ map ntpdate_command (firstn k servers))%list.
Proof.
  induction servers as [|s rest IH]; intros n st.
  - exists 0%nat. cbn. now rewrite app_nil_r.
  - rewrite loop_cons. destruct (query_effect cmd_run s st) as [Hc _].
    destruct (_query_ntp_server cmd_run s st) as [[o|e] st1]; cbn in Hc.
    + destruct (loop_body max_offset o n) as [n'|v].
      * destruct (IH n' st1) as [k Hk]. exists (S k).
        rewrite Hk, Hc, <- app_assoc. reflexivity.
      * exists 1%nat. cbn. exact Hc.
    + exists 1%nat. cbn. exact Hc.
Qed.

(** A call of [time_check] ends in one of four verdicts or in a
    [ValueError]; the verdict is [(False, None)] only when the working list
    is empty. *)
Theorem time_check_outcomes {World : Type}
    (cmd_run : string -> World -> option string * World)
    ntp_servers max_offset nb_servers extend_chained chained (st : state World) :
  match fst (time_check cmd_run ntp_servers max_offset nb_servers
                        extend_chained chained st) with
  | Ret (false, None) => working_list ntp_servers extend_chained chained st = []
  | Ret (true, Some false) | Ret (false, Some false) | Ret (true, Some true) =>
      working_list ntp_servers extend_chained chained st <> []
  | Ret _ => False
  | Raise e => e = ValueError
  end.
Proof.
  rewrite check_run. cbv zeta.
  destruct (working_list ntp_servers extend_chained chained st) as [|s rest];
    [reflexivity|].
  destruct (for_loop cmd_run max_offset (s :: rest) 0 _) as [[[n|v]|e] st2] eqn:Hl;
    cbn.
  - destruct (n <? nb_servers); cbn; discriminate.
  - apply loop_return in Hl. subst v. discriminate.
  - eapply loop_raises, Hl.
Qed.

(** The servers are queried one at a time in the order of the working list,
    each at most once: the commands a call of [time_check] gives to
    [cmd.run] are those of the first [k] servers of the working list, for
    some [k]. *)
Theorem time_check_queries_in_order {World : Type}
    (cmd_run : string -> World -> option string * World)
    ntp_servers max_offset nb_servers extend_chained chained (st : state World) :
  exists k,
    calls (snd (time_check cmd_run ntp_servers max_offset nb_servers
                           extend_chained chained st))
    = (calls st
       ++ map ntpdate_command
              (firstn k (working_list ntp_servers extend_chained chained st)))%list.
Proof.
  rewrite check_run. cbv zeta.
  destruct (after_merge_frame ntp_servers extend_chained chained st) as (_ & Hc & _).
  destruct (working_list ntp_servers extend_chained chained st) as [|s rest].
  - exists 0%nat. cbn. now rewrite app_nil_r.
  - destruct (loop_calls cmd_run max_offset (s :: rest) 0
                (after_merge ntp_servers extend_chained chained st)) as [k Hk].
    exists k. rewrite <- Hc.
    destruct (for_loop cmd_run max_offset (s :: rest) 0 _) as [[[n|v]|e] st2];
      cbn in Hk |- *; try exact Hk.
    destruct (n <? nb_servers); exact Hk.
Qed.

(** ** Reading a verdict backwards *)

(** A loop that runs to its end has queried every server, and none of the
    answers was one that triggers the early return. *)
Lemma loop_next_inv {World : Type}
    (cmd_run : string -> World -> option string * World) max_offset :
  forall servers n k (st st' : state World),
    for_loop cmd_run max_offset servers n st = (Ret (Next k), st') ->
    exists offsets,
      query_all cmd_run servers st = (Ret offsets, st')
      /\ Forall (fun o => triggers max_offset o = false) offsets
      /\ k = n + count heeded offsets.
Proof.
  induction servers as [|s rest IH]; intros n k st st' H.
  - cbn in H. injection H as <- <-. exists []. repeat split; [constructor|].
    unfold count. cbn. lia.
  - rewrite loop_cons in H. rewrite all_cons.
    destruct (_query_ntp_server cmd_run s st) as [[o|e] st1]; [|discriminate].
    rewrite loop_body_spec in H.
    destruct (triggers max_offset o) eqn:Ho; [discriminate|].
    destruct (IH _ _ _ _ H) as (os & Hall & Hno & Hk).
    exists (o :: os). rewrite Hall. repeat split; [now constructor|].
    rewrite count_cons. lia.
Qed.

(** A loop that ends early, by a return or by an exception, has passed over
    a run of servers without incident and stopped at the next one. *)
Lemma loop_stop_inv {World : Type}
    (cmd_run : string -> World -> option string * World) max_offset :
  forall servers n (st st' : state World) r,
    for_loop cmd_run max_offset servers n st = (r, st') ->
    (forall k, r <> Ret (Next k)) ->
    exists pre s post offsets st1,
      servers = (pre ++ s :: post)%list
      /\ query_all cmd_run pre st = (Ret offsets, st1)
      /\ Forall (fun o => triggers max_offset o = false) offsets
      /\ match _query_ntp_server cmd_run s st1 with
         | (Ret o, st2) =>
             triggers max_offset o = true
             /\ r = Ret (Return (true, Some false)) /\ st' = st2
         | (Raise e, st2) => r = Raise e /\ st' = st2
         end.
Proof.
  induction servers as [|s rest IH]; intros n st st' r H Hr.
  - cbn in H. injection H as <- <-. now destruct (Hr n).
  - rewrite loop_cons in H.
    destruct (_query_ntp_server cmd_run s st) as [[o|e] st1] eqn:Hq.
    + rewrite loop_body_spec in H. destruct (triggers max_offset o) eqn:Ho.
      * injection H as <- <-.
        exists [], s, rest, [], st. cbn. rewrite Hq.
        repeat split; first [exact Ho | constructor].
      * destruct (IH _ _ _ _ H Hr) as (pre & s' & post & os & st2 & -> & Hall & Hno & Hs).
        exists (s :: pre), s', post, (o :: os), st2.
        rewrite all_cons, Hq, Hall. repeat split; [now constructor | exact Hs].
    + injection H as <- <-.
      exists [], s, rest, [], st. cbn. rewrite Hq. repeat split; constructor.
Qed.

(** A query that raises has met a token that [float] refuses; it has logged
    nothing. *)
Lemma query_raise_inv {World : Type}
    (cmd_run : string -> World -> option string * World)
    ntp_server (st st' : state World) e :
  _query_ntp_server cmd_run ntp_server st = (Raise e, st') ->
  e = ValueError
  /\ offset_expr (fst (cmd_run (ntpdate_command ntp_server) (world st)))
     = Raise ValueError
  /\ logged st' = logged st.
Proof.
  unfold _query_ntp_server, parse_offset. unfold_monad.
  destruct (cmd_run _ _) as [out w]. cbn.
  destruct (offset_expr out) as [x|[]]; cbn; intro H; try discriminate.
  injection H as <- <-. auto.
Qed.

(** The docstring's "only if": when [time_check] returns [(True, True)],
    every server of the working list was queried, in order, and answered;
    no answer was an offset, other than zero, above [max_offset * 60]; and
    at least [nb_servers] answers were offsets other than zero. *)
Theorem pass_is_sound {World : Type}
    (cmd_run : string -> World -> option string * World)
    ntp_servers max_offset nb_servers extend_chained chained
    (st st' : state World) :
  time_check cmd_run ntp_servers max_offset nb_servers extend_chained chained st
    = (Ret (true, Some true), st') ->
  exists offsets,
    query_all cmd_run (working_list ntp_servers extend_chained chained st)
              (after_merge ntp_servers extend_chained chained st)
      = (Ret offsets, st')
    /\ Forall (fun o => triggers max_offset o = false) offsets
    /\ nb_servers <= count heeded offsets
    /\ calls st'
       = (calls st ++ map ntpdate_command
                          (working_list ntp_servers extend_chained chained st))%list.
Proof.
  intro H. rewrite check_run in H. cbv zeta in H.
  destruct (working_list ntp_servers extend_chained chained st) as [|s rest];
    [discriminate|].
  destruct (for_loop cmd_run max_offset (s :: rest) 0 _) as [[[k|v]|e] st2] eqn:Hl.
  - destruct (Z.ltb_spec k nb_servers); [discriminate|]. injection H as <-.
    destruct (loop_next_inv cmd_run max_offset _ _ _ _ _ Hl) as (os & Hall & Hno & Hk).
    exists os. repeat split; [exact Hall | exact Hno | lia |].
    destruct (all_effect cmd_run _ _ _ _ Hall) as (Hc & _ & _).
    destruct (after_merge_frame ntp_servers extend_chained chained st) as (_ & Hc0 & _).
    now rewrite Hc, Hc0.
  - apply loop_return in Hl. subst v. discriminate.
  - discriminate.
Qed.

(** The four near servers with a quorum of four. *)
Lemma pass_is_sound_witness :
  exists offsets,
    query_all (Mock.cmd_run Mock.near)
              (working_list (Some 0%nat) true None Cases.start)
              (after_merge (Some 0%nat) true None Cases.start)
      = (Ret offsets, Cases.all_queried)
    /\ Forall (fun o => triggers 15 o = false) offsets
    /\ 4 <= count heeded offsets
    /\ calls Cases.all_queried
       = (calls Cases.start
          ++ map ntpdate_command
                 (working_list (Some 0%nat) true None Cases.start))%list.
Proof.
  apply (pass_is_sound (Mock.cmd_run Mock.near) (Some 0%nat) 15 4 true None
           Cases.start Cases.all_queried).
  vm_compute. reflexivity.
Defined.

(** When [time_check] returns [(True, False)], the working list is
    [pre ++ s :: post] where the servers of [pre] were queried and answered
    without incident, and [s] answered with an offset that is not zero and
    is strictly greater than [max_offset * 60]; the call ended there, with
    no server of [post] queried. *)
Theorem fail_names_a_violation {World : Type}
    (cmd_run : string -> World -> option string * World)
    ntp_servers max_offset nb_servers extend_chained chained
    (st st' : state World) :
  time_check cmd_run ntp_servers max_offset nb_servers extend_chained chained st
    = (Ret (true, Some false), st') ->
  exists pre s post offsets st1 x,
    working_list ntp_servers extend_chained chained st = (pre ++ s :: post)%list
    /\ query_all cmd_run pre (after_merge ntp_servers extend_chained chained st)
       = (Ret offsets, st1)
    /\ Forall (fun o => triggers max_offset o = false) offsets
    /\ _query_ntp_server cmd_run s st1 = (Ret (Some x), st')
    /\ PyFloat.truthy x = true
    /\ PyFloat.gt_int x (max_offset * 60) = true
    /\ calls st' = (calls st ++ map ntpdate_command (pre ++ [s]))%list.
Proof.
  intro H. rewrite check_run in H. cbv zeta in H.
  destruct (working_list ntp_servers extend_chained chained st) as [|s0 rest];
    [discriminate|].
  destruct (for_loop cmd_run max_offset (s0 :: rest) 0 _) as [r st2] eqn:Hl.
  assert (Hr : forall k, r <> Ret (Next k)).
  { intros k ->. destruct (k <? nb_servers); discriminate. }
  destruct (loop_stop_inv cmd_run max_offset _ _ _ _ _ Hl Hr)
    as (pre & s & post & os & st1 & Hw & Hall & Hno & Hs).
  destruct (_query_ntp_server cmd_run s st1) as [[o|e] st3] eqn:Hq.
  - destruct Hs as (Ho & -> & ->). injection H as <-.
    unfold triggers, heeded, exceeds in Ho. destruct o as [x|]; [|discriminate].
    apply andb_true_iff in Ho as [Ht Hg].
    exists pre, s, post, os, st1, x. repeat split; auto.
    destruct (all_effect cmd_run _ _ _ _ Hall) as (Hc & _ & _).
    destruct (query_effect cmd_run s st1) as [Hc' _]. rewrite Hq in Hc'. cbn in Hc'.
    destruct (after_merge_frame ntp_servers extend_chained chained st) as (_ & Hc0 & _).
    now rewrite Hc', Hc, Hc0, map_app, app_assoc.
  - destruct Hs as (-> & ->). discriminate.
Qed.

(** The third of four servers is 1000 seconds ahead. *)
Lemma fail_names_a_violation_witness :
  exists pre s post offsets st1 x,
    working_list (Some 0%nat) true None Cases.start = (pre ++ s :: post)%list
    /\ query_all (Mock.cmd_run Mock.third_far) pre
                 (after_merge (Some 0%nat) true None Cases.start)
       = (Ret offsets, st1)
    /\ Forall (fun o => triggers 15 o = false) offsets
    /\ _query_ntp_server (Mock.cmd_run Mock.third_far) s st1
       = (Ret (Some x), Cases.three_queried)
    /\ PyFloat.truthy x = true
    /\ PyFloat.gt_int x (15 * 60) = true
    /\ calls Cases.three_queried
       = (calls Cases.start ++ map ntpdate_command (pre ++ [s]))%list.
Proof.
  apply (fail_names_a_violation (Mock.cmd_run Mock.third_far) (Some 0%nat) 15 4
           true None Cases.start Cases.three_queried).
  vm_compute. reflexivity.
Defined.

(** When [time_check] returns [(False, False)], every server of the working
    list was queried and answered, no answer triggered the early return,
    fewer than [nb_servers] answers were offsets other than zero, and the
    last thing the call did was to log that number beside [nb_servers]. *)
Theorem fail_below_quorum {World : Type}
    (cmd_run : string -> World -> option string * World)
    ntp_servers max_offset nb_servers extend_chained chained
    (st st' : state World) :
  time_check cmd_run ntp_servers max_offset nb_servers extend_chained chained st
    = (Ret (false, Some false), st') ->
  exists offsets st2,
    query_all cmd_run (working_list ntp_servers extend_chained chained st)
              (after_merge ntp_servers extend_chained chained st)
      = (Ret offsets, st2)
    /\ Forall (fun o => triggers max_offset o = false) offsets
    /\ count heeded offsets < nb_servers
    /\ st' = add_log (ServersReached (count heeded offsets) nb_servers) st2.
Proof.
  intro H. rewrite check_run in H. cbv zeta in H.
  destruct (working_list ntp_servers extend_chained chained st) as [|s rest];
    [discriminate|].
  destruct (for_loop cmd_run max_offset (s :: rest) 0 _) as [[[k|v]|e] st2] eqn:Hl.
  - destruct (Z.ltb_spec k nb_servers); [|discriminate]. injection H as <-.
    destruct (loop_next_inv cmd_run max_offset _ _ _ _ _ Hl) as (os & Hall & Hno & Hk).
    cbn in Hk. subst k. exists os, st2. auto.
  - apply loop_return in Hl. subst v. discriminate.
  - discriminate.
Qed.

(** Two of four servers reachable, with a quorum of four. *)
Lemma fail_below_quorum_witness :
  exists offsets st2,
    query_all (Mock.cmd_run Cases.two_reachable)
              (working_list (Some 0%nat) true None Cases.start)
              (after_merge (Some 0%nat) true None Cases.start)
      = (Ret offsets, st2)
    /\ Forall (fun o => triggers 15 o = false) offsets
    /\ count heeded offsets < 4
    /\ snd (time_check (Mock.cmd_run Cases.two_reachable) (Some 0%nat) 15 4 true
                       None Cases.start)
       = add_log (ServersReached (count heeded offsets) 4) st2.
Proof.
  apply (fail_below_quorum (Mock.cmd_run Cases.two_reachable) (Some 0%nat) 15 4
           true None Cases.start).
  vm_compute. reflexivity.
Defined.

(** When [time_check] raises, the exception is a [ValueError]; the working
    list is [pre ++ s :: post] where the servers of [pre] were queried and
    answered without incident, and the response of [s] carried, after the
    word [offset], a token that [float] refuses.  The call ended there:
    that response was not logged and no verdict was formed. *)
Theorem raise_names_a_bad_number {World : Type}
    (cmd_run : string -> World -> option string * World)
    ntp_servers max_offset nb_servers extend_chained chained
    (st st' : state World) e :
  time_check cmd_run ntp_servers max_offset nb_servers extend_chained chained st
    = (Raise e, st') ->
  e = ValueError
  /\ exists pre s post offsets st1,
      working_list ntp_servers extend_chained chained st = (pre ++ s :: post)%list
      /\ query_all cmd_run pre (after_merge ntp_servers extend_chained chained st)
         = (Ret offsets, st1)
      /\ Forall (fun o => triggers max_offset o = false) offsets
      /\ _query_ntp_server cmd_run s st1 = (Raise ValueError, st')
      /\ offset_expr (fst (cmd_run (ntpdate_command s) (world st1)))
         = Raise ValueError
      /\ logged st' = logged st1.
Proof.
  intro H. rewrite check_run in H. cbv zeta in H.
  destruct (working_list ntp_servers extend_chained chained st) as [|s0 rest];
    [discriminate|].
  destruct (for_loop cmd_run max_offset (s0 :: rest) 0 _) as [r st2] eqn:Hl.
  assert (Hr : forall k, r <> Ret (Next k)).
  { intros k ->. destruct (k <? nb_servers); discriminate. }
  destruct (loop_stop_inv cmd_run max_offset _ _ _ _ _ Hl Hr)
    as (pre & s & post & os & st1 & Hw & Hall & Hno & Hs).
  destruct (_query_ntp_server cmd_run s st1) as [[o|e'] st3] eqn:Hq.
  - destruct Hs as (_ & -> & _). discriminate.
  - destruct Hs as (-> & ->). injection H as <- <-.
    destruct (query_raise_inv cmd_run _ _ _ _ Hq) as (-> & Hx & Hlog).
    split; [reflexivity|]. exists pre, s, post, os, st1. repeat split; assumption.
Qed.

(** The second of four servers answers with a word for a number. *)
Lemma raise_names_a_bad_number_witness :
  ValueError = ValueError
  /\ exists pre s post offsets st1,
      working_list (Some 0%nat) true None Cases.start = (pre ++ s :: post)%list
      /\ query_all (Mock.cmd_run Cases.second_garbled) pre
                   (after_merge (Some 0%nat) true None Cases.start)
         = (Ret offsets, st1)
      /\ Forall (fun o => triggers 15 o = false) offsets
      /\ _query_ntp_server (Mock.cmd_run Cases.second_garbled) s st1
         = (Raise ValueError, Cases.two_queried)
      /\ offset_expr (fst (Mock.cmd_run Cases.second_garbled (ntpdate_command s)
                             (world st1)))
         = Raise ValueError
      /\ logged Cases.two_queried = logged st1.
Proof.
  apply (raise_names_a_bad_number (Mock.cmd_run Cases.second_garbled) (Some 0%nat)
           15 4 true None Cases.start Cases.two_queried ValueError).
  vm_compute. reflexivity.
Defined.

(** ** Relaxing the policy *)

Lemma gt_int_antitone x n n' :
  n <= n' -> PyFloat.gt_int x n' = true -> PyFloat.gt_int x n = true.
Proof.
  intros Hn. destruct x as [s|s| |s m e]; cbn; auto.
  - rewrite !Z.ltb_lt. lia.
  - destruct (0 <=? e) eqn:He; rewrite !Z.ltb_lt; [lia|].
    apply Z.leb_gt in He.
    assert (0 < 2 ^ (- e)) by (apply Z.pow_pos_nonneg; lia). nia.
Qed.

Lemma triggers_antitone max_offset max_offset' o :
  max_offset <= max_offset' ->
  triggers max_offset o = false -> triggers max_offset' o = false.
Proof.
  intros Hm H. unfold triggers, exceeds in *. destruct o as [x|]; [|exact H].
  destruct (heeded (Some x)); [|reflexivity]. cbn in *.
  destruct (PyFloat.gt_int x (max_offset' * 60)) eqn:Hg; [|reflexivity].
  rewrite (gt_int_antitone x (max_offset * 60) (max_offset' * 60)) in H by (auto; lia).
  discriminate.
Qed.

(** A pass survives a more lenient policy: when [time_check] returns
    [(True, True)], it does so again, in the same final state, from the same
    start with a [max_offset] at least as large and an [nb_servers] at most
    as large. *)
Theorem lenient_policy_keeps_pass {World : Type}
    (cmd_run : string -> World -> option string * World)
    ntp_servers max_offset nb_servers max_offset' nb_servers'
    extend_chained chained (st st' : state World) :
  max_offset <= max_offset' ->
  nb_servers' <= nb_servers ->
  time_check cmd_run ntp_servers max_offset nb_servers extend_chained chained st
    = (Ret (true, Some true), st') ->
  time_check cmd_run ntp_servers max_offset' nb_servers' extend_chained chained st
    = (Ret (true, Some true), st').
Proof.
  intros Hm Hn H. rewrite check_run in H |- *. cbv zeta in H |- *.
  destruct (working_list ntp_servers extend_chained chained st) as [|s rest];
    [discriminate|].
  destruct (for_loop cmd_run max_offset (s :: rest) 0 _) as [[[k|v]|e] st2] eqn:Hl.
  - destruct (Z.ltb_spec k nb_servers); [discriminate|]. injection H as <-.
    destruct (loop_next_inv cmd_run max_offset _ _ _ _ _ Hl) as (os & Hall & Hno & Hk).
    rewrite (loop_exhausts cmd_run max_offset' _ 0 _ _ _ Hall).
    + rewrite <- Hk. destruct (Z.ltb_spec k nb_servers'); [lia|reflexivity].
    + eapply Forall_impl; [|exact Hno]. intro o. now apply triggers_antitone.
  - apply loop_return in Hl. subst v. discriminate.
  - discriminate.
Qed.

(** The four near servers pass at 15 minutes and four servers, hence at 60
    minutes and two. *)
Lemma lenient_policy_keeps_pass_witness :
  time_check (Mock.cmd_run Mock.near) (Some 0%nat) 60 2 true None Cases.start
  = (Ret (true, Some true), Cases.all_queried).
Proof.
  apply (lenient_policy_keeps_pass (Mock.cmd_run Mock.near) (Some 0%nat) 15 4 60 2
           true None Cases.start Cases.all_queried);
    [lia | lia | vm_compute; reflexivity].
Defined.

(** ** The store *)

Lemma after_merge_heap {World : Type}
    ntp_servers extend_chained chained (st : state World) :
  (forall l', ntp_servers <> Some l' ->
              heap (after_merge ntp_servers extend_chained chained st) l'
              = heap st l')
  /\ (extend_chained = false
      \/ list_truthy (heap st) chained = false
      \/ list_truthy (heap st) ntp_servers = false ->
      after_merge ntp_servers extend_chained chained st = st).
Proof.
  unfold after_merge. destruct extend_chained.
  - destruct (list_truthy (heap st) chained) eqn:Hc.
    + destruct (list_truthy (heap st) ntp_servers) eqn:Hs.
      * destruct ntp_servers as [l|]; [|discriminate].
        destruct chained as [c|]; [|discriminate].
        cbn in Hs, Hc. rewrite merge_extends.
        -- split; [|intros [?|[?|?]]; discriminate].
           intros l' Hl. cbn. unfold store_set.
           destruct (Nat.eqb_spec l' l); [subst; congruence | reflexivity].
        -- intro H. now rewrite H in Hs.
        -- intro H. now rewrite H in Hc.
      * rewrite (merge_substitutes _ _ _ Hs Hc). auto.
    + rewrite merge_keeps by auto. auto.
  - rewrite merge_keeps by auto. auto.
Qed.

(** [time_check] writes to one list object at most, the one passed as
    [ntp_servers]: every other list, the chained one included when it is
    another object, holds after the call what it held before.  When
    [extend_chained] is false, or either list is empty or [None], no list
    is written to at all. *)
Theorem other_lists_are_untouched {World : Type}
    (cmd_run : string -> World -> option string * World)
    ntp_servers max_offset nb_servers extend_chained chained (st : state World) :
  (forall l', ntp_servers <> Some l' ->
     heap (snd (time_check cmd_run ntp_servers max_offset nb_servers
                           extend_chained chained st)) l'
     = heap st l')
  /\ (extend_chained = false
      \/ list_truthy (heap st) chained = false
      \/ list_truthy (heap st) ntp_servers = false ->
      heap (snd (time_check cmd_run ntp_servers max_offset nb_servers
                            extend_chained chained st))
      = heap st).
Proof.
  rewrite check_heap.
  destruct (after_merge_heap ntp_servers extend_chained chained st) as [H1 H2].
  split; [exact H1|]. intro H. now rewrite (H2 H).
Qed.

(** The chained list [e; f] is as it was after it was merged into [abcd]. *)
Lemma other_lists_are_untouched_witness :
  heap (snd (time_check (Mock.cmd_run Mock.near) (Some 0%nat) 15 4 true
                        (Some 1%nat) Cases.start)) 1%nat
  = ["e"; "f"].
Proof.
  apply (proj1 (other_lists_are_untouched (Mock.cmd_run Mock.near) (Some 0%nat)
                  15 4 true (Some 1%nat) Cases.start) 1%nat).
  discriminate.
Defined.



(** ** The log *)

(** A query logs one diagnostic when it returns [None] and nothing
    otherwise. *)
Lemma query_log {World : Type}
    (cmd_run : string -> World -> option string * World)
    ntp_server (st : state World) :
  logged (snd (_query_ntp_server cmd_run ntp_server st))
  = (logged st
     ++ match fst (_query_ntp_server cmd_run ntp_server st) with
        | Ret None =>
            [UnexpectedReturnData
               (fst (cmd_run (ntpdate_command ntp_server) (world st)))]
        | _ => []
        end)%list.
Proof.
  unfold _query_ntp_server, parse_offset. unfold_monad.
  destruct (cmd_run _ _) as [out w]. cbn.
  destruct (offset_expr out) as [x|[]]; cbn; now rewrite ?app_nil_r.
Qed.

Lemma loop_log {World : Type}
    (cmd_run : string -> World -> option string * World) max_offset :
  forall servers n (st : state World),
  exists recs,
    logged (snd (for_loop cmd_run max_offset servers n st))
    = (logged st ++ recs)%list
    /\ forallb is_unexpected recs = true
    /\ (List.length (calls st) + List.length recs
        <= List.length (calls (snd (for_loop cmd_run max_offset servers n st))))%nat.
Proof.
  induction servers as [|s rest IH]; intros n st.
  - exists []. cbn. rewrite app_nil_r. repeat split. lia.
  - rewrite loop_cons.
    pose proof (query_log cmd_run s st) as Hq.
    destruct (query_effect cmd_run s st) as [Hc _].
    destruct (_query_ntp_server cmd_run s st) as [[o|e] st1]; cbn in Hq, Hc.
    + assert (Hnext : forall n',
                 exists recs,
                   logged (snd (for_loop cmd_run max_offset rest n' st1))
                   = (logged st ++ recs)%list
                   /\ forallb is_unexpected recs = true
                   /\ (List.length (calls st) + List.length recs
                       <= List.length
                            (calls (snd (for_loop cmd_run max_offset rest n' st1))))%nat).
      { intro n'. destruct (IH n' st1) as (recs & Hl & Hu & Hn).
        rewrite Hq in Hl. rewrite Hc, length_app in Hn. cbn in Hn.
        destruct o as [x|].
        - exists recs. rewrite app_nil_r in Hl. repeat split; [exact Hl|exact Hu|lia].
        - eexists (_ :: recs). rewrite <- app_assoc in Hl. cbn in Hl.
          repeat split; [exact Hl | exact Hu | cbn; lia]. }
      unfold loop_body. destruct o as [x|]; [|apply Hnext].
      destruct (negb (PyFloat.truthy x)); [apply Hnext|].
      destruct (PyFloat.gt_int x (max_offset * 60)); [|apply Hnext].
      exists []. cbn. rewrite Hq, Hc, length_app. cbn. repeat split. lia.
    + exists []. cbn. rewrite Hq, Hc, length_app. cbn. repeat split. lia.
Qed.

(** What a call adds to the log: a diagnostic for some of the queries it
    made, at most one each, and then one closing record that tells the
    failed verdicts apart.  [(False, None)] closes with the record of the
    missing servers and has no diagnostic before it; [(False, False)] closes
    with the record of the servers reached; a pass, a violation and an
    exception close with nothing. *)
Theorem log_tells_the_verdict {World : Type}
    (cmd_run : string -> World -> option string * World)
    ntp_servers max_offset nb_servers extend_chained chained (st : state World) :
  let run := time_check cmd_run ntp_servers max_offset nb_servers
                        extend_chained chained st in
  exists recs k,
    forallb is_unexpected recs = true
    /\ (List.length (calls st) + List.length recs
        <= List.length (calls (snd run)))%nat
    /\ logged (snd run)
       = (logged st ++ recs
          ++ match fst run with
             | Ret (false, None) => [NoServersProvided]
             | Ret (false, Some false) => [ServersReached k nb_servers]
             | _ => []
             end)%list
    /\ (fst run = Ret (false, None) -> recs = []).
Proof.
  cbv zeta. rewrite check_run. cbv zeta.
  destruct (after_merge_frame ntp_servers extend_chained chained st) as (_ & Hc & Hlg).
  destruct (working_list ntp_servers extend_chained chained st) as [|s rest].
  - exists [], 0. cbn. rewrite Hc, Hlg. repeat split. lia.
  - destruct (loop_log cmd_run max_offset (s :: rest) 0
                (after_merge ntp_servers extend_chained chained st))
      as (recs & Hl & Hu & Hn).
    rewrite Hc, Hlg in *.
    destruct (for_loop cmd_run max_offset (s :: rest) 0 _) as [[[k|v]|e] st2] eqn:Hloop;
      cbn in Hl, Hn.
    + exists recs, k. destruct (k <? nb_servers); cbn; rewrite Hl.
      * rewrite <- app_assoc. repeat split; [exact Hu | exact Hn | discriminate].
      * rewrite app_nil_r. repeat split; [exact Hu | exact Hn | discriminate].
    + apply loop_return in Hloop. subst v. exists recs, 0. cbn.
      rewrite Hl, app_nil_r. repeat split; [exact Hu | exact Hn | discriminate].
    + exists recs, 0. cbn. rewrite Hl, app_nil_r.
      repeat split; [exact Hu | exact Hn | discriminate].
Qed.

(** ** Collaborators that answer alike *)

Lemma query_of_response {World : Type}
    (cmd_run : string -> World -> option string * World)
    ntp_server (st : state World) :
  fst (_query_ntp_server cmd_run ntp_server st)
  = match offset_expr (fst (cmd_run (ntpdate_command ntp_server) (world st))) with
    | Ret x => Ret (Some x)
    | Raise e => if caught e then Ret None else Raise e
    end.
Proof.
  unfold _query_ntp_server, parse_offset. unfold_monad.
  destruct (cmd_run _ _) as [out w]. cbn.
  destruct (offset_expr out) as [x|[]]; reflexivity.
Qed.

(** An outage: when no response is usable, whatever the command and the
    state of the world, a call on a working list that is not empty queries
    every server and returns [(False, False)] if [nb_servers] is positive.
    If [nb_servers] is zero or negative it returns [(True, True)] though no
    server answered. *)
Theorem outage_verdict {World : Type}
    (cmd_run : string -> World -> option string * World)
    ntp_servers max_offset nb_servers extend_chained chained (st : state World) :
  (forall cmd w, unusable (fst (cmd_run cmd w)) = true) ->
  working_list ntp_servers extend_chained chained st <> [] ->
  let run := time_check cmd_run ntp_servers max_offset nb_servers
                        extend_chained chained st in
  fst run = Ret (if 0 <? nb_servers then (false, Some false) else (true, Some true))
  /\ calls (snd run)
     = (calls st ++ map ntpdate_command
                        (working_list ntp_servers extend_chained chained st))%list.
Proof.
  intros Hout Hne.
  assert (Hloop : forall servers n (st0 : state World),
             exists st1,
               for_loop cmd_run max_offset servers n st0 = (Ret (Next n), st1)
               /\ calls st1 = (calls st0 ++ map ntpdate_command servers)%list).
  { induction servers as [|s rest IH]; intros n st0.
    - exists st0. cbn. now rewrite app_nil_r.
    - rewrite loop_cons. pose proof (query_of_response cmd_run s st0) as Hq.
      destruct (query_effect cmd_run s st0) as [Hc _].
      specialize (Hout (ntpdate_command s) (world st0)). unfold unusable in Hout.
      destruct (offset_expr _) as [x|e]; [discriminate|]. rewrite Hout in Hq.
      destruct (_query_ntp_server cmd_run s st0) as [r st1]. cbn in Hq, Hc.
      subst r. cbn. destruct (IH n st1) as (st2 & Hl & Hc2).
      exists st2. rewrite Hl, Hc2, Hc, <- app_assoc. auto. }
  cbv zeta. rewrite check_run. cbv zeta.
  destruct (after_merge_frame ntp_servers extend_chained chained st) as (_ & Hc & _).
  destruct (working_list ntp_servers extend_chained chained st) as [|s rest];
    [congruence|].
  destruct (Hloop (s :: rest) 0 (after_merge ntp_servers extend_chained chained st))
    as (st1 & Hl & Hc1).
  rewrite Hl, <- Hc, <- Hc1. destruct (0 <? nb_servers); auto.
Qed.

(** Nothing answers, and the quorum is zero: the call passes. *)
Lemma outage_verdict_witness :
  let run := time_check (Mock.cmd_run []) (Some 0%nat) 15 0 true None Cases.start in
  fst run = Ret (true, Some true)
  /\ calls (snd run) = Cases.abcd_commands.
Proof.
  apply (outage_verdict (Mock.cmd_run []) (Some 0%nat) 15 0 true None Cases.start);
    [ intros cmd w; reflexivity | vm_compute; discriminate ].
Defined.

(** Servers in good health: when every server of the working list answers,
    in any state of the world, with an offset that is not zero and not above
    [max_offset * 60], the verdict turns on the length of the working list
    alone, [(True, True)] when it reaches [nb_servers] and [(False, False)]
    when it does not.  Each entry of the list counts, so a server listed
    twice counts twice. *)
Theorem healthy_servers_verdict {World : Type}
    (cmd_run : string -> World -> option string * World)
    ntp_servers max_offset nb_servers extend_chained chained (st : state World) :
  (forall s w,
      In s (working_list ntp_servers extend_chained chained st) ->
      exists x,
        offset_expr (fst (cmd_run (ntpdate_command s) w)) = Ret x
        /\ PyFloat.truthy x = true
        /\ PyFloat.gt_int x (max_offset * 60) = false) ->
  working_list ntp_servers extend_chained chained st <> [] ->
  fst (time_check cmd_run ntp_servers max_offset nb_servers extend_chained chained st)
  = Ret (if Z.of_nat (List.length (working_list ntp_servers extend_chained chained st))
            <? nb_servers
         then (false, Some false) else (true, Some true)).
Proof.
  intros Hok Hne.
  assert (Hloop : forall servers n (st0 : state World),
             (forall s, In s servers ->
                        In s (working_list ntp_servers extend_chained chained st)) ->
             exists st1,
               for_loop cmd_run max_offset servers n st0
               = (Ret (Next (n + Z.of_nat (List.length servers))), st1)).
  { induction servers as [|s rest IH]; intros n st0 Hin.
    - exists st0. cbn. now rewrite Z.add_0_r.
    - rewrite loop_cons. pose proof (query_of_response cmd_run s st0) as Hq.
      destruct (Hok s (world st0) (Hin s (or_introl eq_refl))) as (x & Hx & Ht & Hg).
      rewrite Hx in Hq.
      destruct (_query_ntp_server cmd_run s st0) as [r st1]. cbn in Hq. subst r.
      unfold loop_body. rewrite Ht, Hg. cbn [negb].
      destruct (IH (n + 1) st1) as (st2 & Hl); [intros; apply Hin; now right|].
      exists st2. rewrite Hl. do 2 f_equal. cbn [List.length]. f_equal. lia. }
  rewrite check_run. cbv zeta.
  destruct (working_list ntp_servers extend_chained chained st) as [|s rest] eqn:Hw;
    [congruence|].
  destruct (Hloop (s :: rest) 0 (after_merge ntp_servers extend_chained chained st))
    as (st1 & Hl); [auto|].
  rewrite Hl. cbn [Z.add].
  destruct (Z.of_nat (List.length (s :: rest)) <? nb_servers); reflexivity.
Qed.

(** One near server listed four times meets a quorum of four. *)
Lemma healthy_servers_verdict_witness :
  fst (time_check (Mock.cmd_run Mock.near) (Some 0%nat) 15 4 true None
                  (Mock.start [["a"; "a"; "a"; "a"]]))
  = Ret (true, Some true).
Proof.
  apply (healthy_servers_verdict (Mock.cmd_run Mock.near) (Some 0%nat) 15 4 true
           None (Mock.start [["a"; "a"; "a"; "a"]]));
    [ | vm_compute; discriminate ].
  intros s w Hin. exists (S754_finite false 4503599627370496 (-51)).
  assert (Hs : s = "a").
  { vm_compute in Hin. repeat destruct Hin as [Hin|Hin]; auto; contradiction. }
  subst s. vm_compute. auto.
Defined.

(** ** What the parser reads *)

Module ParseFacts.

Import PyStr.

Lemma prefix_empty s : prefix "" s = true.
Proof. now destruct s. Qed.

Lemma append_assoc (a b c : string) : (a ++ b) ++ c = a ++ b ++ c.
Proof. induction a; cbn; congruence. Qed.

Lemma length_append (a b : string) :
  String.length (a ++ b) = (String.length a + String.length b)%nat.
Proof. induction a; cbn; congruence. Qed.

(** Whether [p] is a prefix is settled by as many characters as [p] has. *)
Lemma prefix_app_long : forall p a b,
  (String.length p <= String.length a)%nat -> prefix p (a ++ b) = prefix p a.
Proof.
  induction p as [|c p IH]; intros a b H.
  - now rewrite !prefix_empty.
  - destruct a as [|c' a]; cbn in H; [lia|]. cbn.
    destruct (ascii_dec c c'); [apply IH; lia | reflexivity].
Qed.

Lemma prefix_app_self : forall p s, prefix p (p ++ s) = true.
Proof.
  induction p as [|c p IH]; intro s; [apply prefix_empty|].
  cbn. destruct (ascii_dec c c); [apply IH | congruence].
Qed.

(** After a separator was matched at its first character, the rest of it
    is passed over. *)
Lemma split_from_skip sep : forall x cur s,
  split_from sep (String.length x) cur (x ++ s) = split_from sep O cur s.
Proof.
  induction x as [|c x IH]; intros cur s; [now destruct s|]. cbn. apply IH.
Qed.

Lemma split_from_at_sep sep cur s :
  sep <> "" ->
  split_from sep O cur (sep ++ s) = cur :: split_from sep O "" s.
Proof.
  intro Hne. destruct sep as [|c sep']; [congruence|].
  change (String c sep' ++ s) with (String c (sep' ++ s)).
  cbn [split_from].
  change (String c (sep' ++ s)) with (String c sep' ++ s).
  rewrite prefix_app_self. cbn [String.length Nat.pred].
  now rewrite split_from_skip.
Qed.

Lemma but_last_snoc : forall s, s <> "" -> exists c, s = but_last s ++ String c "".
Proof.
  induction s as [|c s IH]; intro H; [congruence|].
  destruct s as [|c' s']; [exists c; reflexivity|].
  destruct IH as [d Hd]; [discriminate|]. exists d.
  change (but_last (String c (String c' s')))
    with (String c (but_last (String c' s'))).
  cbn [append]. now rewrite <- Hd.
Qed.

Lemma length_but_last : forall s,
  s <> "" -> String.length s = S (String.length (but_last s)).
Proof.
  intros s H. destruct (but_last_snoc s H) as [c Hc].
  rewrite Hc at 1. rewrite length_append. cbn. lia.
Qed.

(** The first piece of a split ends where the separator first begins. *)
Lemma split_from_first sep : forall pre cur rest,
  sep <> "" ->
  occurs sep (pre ++ but_last sep) = false ->
  split_from sep O cur (pre ++ sep ++ rest)
  = (cur ++ pre) :: split_from sep O "" rest.
Proof.
  induction pre as [|c pre IH]; intros cur rest Hne Hocc.
  - cbn [append]. rewrite PyFacts.append_empty. now apply split_from_at_sep.
  - change (String c pre ++ sep ++ rest) with (String c (pre ++ sep ++ rest)).
    cbn [split_from].
    change (String c pre ++ but_last sep)
      with (String c (pre ++ but_last sep)) in Hocc.
    cbn [occurs] in Hocc. apply orb_false_iff in Hocc as [Hp Ho].
    assert (Hpre : prefix sep (String c (pre ++ sep ++ rest)) = false).
    { destruct (but_last_snoc sep Hne) as [d Hd].
      rewrite Hd at 2. rewrite append_assoc, <- append_assoc.
      change (String c ((pre ++ but_last sep) ++ String d "" ++ rest))
        with (String c (pre ++ but_last sep) ++ String d "" ++ rest).
      rewrite prefix_app_long; [exact Hp|].
      cbn [String.length]. rewrite length_append, (length_but_last sep Hne). lia. }
    rewrite Hpre, (IH _ _ Hne Ho). now rewrite PyFacts.append_snoc.
Qed.

(** Leading whitespace yields no piece. *)
Lemma split_ws_leading : forall ws s,
  all_chars isspace ws = true ->
  split_ws_from "" (ws ++ s) = split_ws_from "" s.
Proof.
  induction ws as [|c ws IH]; intros s H; [reflexivity|].
  cbn in H. apply andb_true_iff in H as [Hc Hws].
  cbn. rewrite Hc. cbn. now apply IH.
Qed.

(** A run of characters that are not whitespace, closed by whitespace or
    by the end of the text, is one piece. *)
Lemma split_ws_token : forall token cur rest,
  all_chars (fun c => negb (isspace c)) token = true ->
  ends_token rest = true ->
  cur ++ token <> "" ->
  exists pieces, split_ws_from cur (token ++ rest) = (cur ++ token) :: pieces.
Proof.
  induction token as [|c token IH]; intros cur rest Ht Hr Hne.
  - rewrite PyFacts.append_empty in *. cbn [append].
    assert (He : is_empty cur = false) by (destruct cur; [congruence|reflexivity]).
    destruct rest as [|d rest]; cbn [split_ws_from].
    + rewrite He. eauto.
    + cbn in Hr. rewrite Hr, He. eauto.
  - cbn in Ht. apply andb_true_iff in Ht as [Hc Ht].
    apply negb_true_iff in Hc. cbn. rewrite Hc.
    destruct (IH (snoc cur c) rest Ht Hr) as [pieces Hp].
    + rewrite PyFacts.append_snoc. exact Hne.
    + exists pieces. rewrite Hp. now rewrite PyFacts.append_snoc.
Qed.

Lemma last_cons_nonempty {A} (a : A) l d : l <> [] -> last (a :: l) d = last l d.
Proof. destruct l; [congruence | reflexivity]. Qed.

(** Whatever comes before a line break does not reach the last line. *)
Lemma last_line_after_break : forall before cur rest d,
  last (split_from newline O cur (before ++ newline ++ rest)) d
  = last (split_from newline O "" rest) d.
Proof.
  induction before as [|c before IH]; intros cur rest d.
  - change ("" ++ newline ++ rest) with (newline ++ rest).
    rewrite (split_from_at_sep newline cur rest) by discriminate.
    apply last_cons_nonempty, PyFacts.split_from_nonempty.
  - change (String c before ++ newline ++ rest)
      with (String c (before ++ newline ++ rest)).
    cbn [split_from].
    destruct (prefix newline (String c (before ++ newline ++ rest))).
    + cbn [newline String.length Nat.pred].
      rewrite last_cons_nonempty by apply PyFacts.split_from_nonempty.
      apply IH.
    + apply IH.
Qed.

End ParseFacts.

(** Only the last line of the response is read: whatever stands before a
    line break changes neither the value of the expression in the [try]
    block nor the exception it raises, hence not the result of the parse. *)
Theorem only_the_last_line_is_read {World : Type}
    before rest (st : state World) :
  offset_expr (Some (before ++ PyStr.newline ++ rest)) = offset_expr (Some rest)
  /\ fst (parse_offset (Some (before ++ PyStr.newline ++ rest)) st)
     = fst (parse_offset (Some rest) st).
Proof.
  assert (H : offset_expr (Some (before ++ PyStr.newline ++ rest))
              = offset_expr (Some rest)).
  { unfold offset_expr, PyStr.split.
    now rewrite ParseFacts.last_line_after_break. }
  split; [exact H|].
  unfold parse_offset. rewrite H.
  destruct (offset_expr (Some rest)) as [x|[]]; reflexivity.
Qed.

(** The offset is the first token after the first [offset]: on a line
    [pre ++ "offset" ++ ws ++ token ++ rest] without a line break, where the
    word does not begin within [pre] and does not occur after itself, [ws]
    is whitespace, [token] is a non-empty run of characters that are not
    whitespace and [rest] is empty or begins with whitespace, the expression
    of the [try] block is [float(token)]: its value, or a [ValueError]. *)
Theorem offset_is_first_token_after_word pre ws token rest :
  PyStr.occurs PyStr.newline (pre ++ "offset" ++ ws ++ token ++ rest) = false ->
  PyStr.occurs "offset" (pre ++ but_last "offset") = false ->
  PyStr.occurs "offset" (ws ++ token ++ rest) = false ->
  all_chars PyStr.isspace ws = true ->
  all_chars (fun c => negb (PyStr.isspace c)) token = true ->
  token <> "" ->
  ends_token rest = true ->
  offset_expr (Some (pre ++ "offset" ++ ws ++ token ++ rest))
  = match PyFloat.of_string token with
    | Some x => Ret x
    | None => Raise ValueError
    end.
Proof.
  intros Hnl Hpre Hafter Hws Htok Hne Hrest. unfold offset_expr.
  rewrite (PyFacts.split_without_sep _ _ Hnl). cbn [last].
  unfold PyStr.split at 1.
  rewrite ParseFacts.split_from_first by (auto; discriminate).
  fold (PyStr.split "offset" (ws ++ token ++ rest)).
  rewrite (PyFacts.split_without_sep _ _ Hafter). cbn [nth_error].
  unfold PyStr.split_ws. rewrite ParseFacts.split_ws_leading by exact Hws.
  destruct (ParseFacts.split_ws_token token "" rest Htok Hrest Hne) as [pieces Hp].
  rewrite Hp. reflexivity.
Qed.

(** The summary line of [ntpdate] for a server half a second ahead. *)
Lemma offset_is_first_token_after_word_witness :
  offset_expr (Some (Cases.summary_head ++ "offset" ++ " " ++ "0.5" ++ " sec"))
  = Ret (S754_finite false 4503599627370496 (-53)).
Proof.
  apply (offset_is_first_token_after_word Cases.summary_head " " "0.5" " sec");
    first [reflexivity | discriminate].
Defined.

(** ** Lists shorter than the quorum *)

Lemma count_le_length p os : count p os <= Z.of_nat (List.length os).
Proof.
  induction os as [|o os IH]; [reflexivity|]. rewrite count_cons.
  cbn [List.length]. destruct (p o); lia.
Qed.

(** A working list with fewer entries than [nb_servers] never passes:
    whatever the servers answer, the verdict is not [(True, True)]. *)
Theorem short_list_never_passes {World : Type}
    (cmd_run : string -> World -> option string * World)
    ntp_servers max_offset nb_servers extend_chained chained (st : state World) :
  Z.of_nat (List.length (working_list ntp_servers extend_chained chained st))
    < nb_servers ->
  fst (time_check cmd_run ntp_servers max_offset nb_servers extend_chained chained st)
    <> Ret (true, Some true).
Proof.
  intros Hlen H. rewrite check_run in H. cbv zeta in H.
  destruct (working_list ntp_servers extend_chained chained st) as [|s rest];
    [discriminate|].
  destruct (for_loop cmd_run max_offset (s :: rest) 0 _) as [[[k|v]|e] st2] eqn:Hl;
    cbn in H.
  - destruct (Z.ltb_spec k nb_servers); [discriminate|].
    destruct (loop_next_inv cmd_run max_offset _ _ _ _ _ Hl) as (os & Hall & _ & Hk).
    destruct (all_effect cmd_run _ _ _ _ Hall) as (_ & _ & Hlo).
    pose proof (count_le_length heeded os). lia.
  - apply loop_return in Hl. subst v. discriminate.
  - discriminate.
Qed.

(** Two near servers against the default quorum of four. *)
Lemma short_list_never_passes_witness :
  fst (time_check (Mock.cmd_run Mock.near) (Some 0%nat) 15 4 true None
                  (Mock.start [["a"; "b"]]))
  <> Ret (true, Some true).
Proof.
  apply (short_list_never_passes (Mock.cmd_run Mock.near) (Some 0%nat) 15 4 true
           None (Mock.start [["a"; "b"]])).
  vm_compute. reflexivity.
Defined.
